(** * WebSocketClient (websocketclient.js): a shallow embedding

    The client object of [websocketclient.js] is modelled as a record, its
    methods as computations in a small state / trace / exception monad, and
    the event loop (socket events, zlib callbacks, the reconnect timer) as
    events fed to the handlers the source registers.

    Conventions.
    - A [Buffer] is a [list Z] of byte values; indexing out of range reads
      [undefined], which the bit operators of the source coerce to 0.
    - The [$] of [$ondata], [$parse], [$readbody], [$decode], [$onerror],
      [$onclose] and [$ping] is dropped (not an identifier character here).
    - Calls into collaborators that live outside the file (utils.js, zlib,
      the socket, JSON and URI codecs) are either parameters (class
      [Collaborators]) or recorded in the trace of effects. *)

From Stdlib Require Import ZArith List String Bool Lia Arith.
Import ListNotations.
Local Open Scope string_scope.
Local Open Scope Z_scope.
Local Open Scope list_scope.

Set Implicit Arguments.

(** ** Buffers *)

Module Buffer.

Definition t := list Z.

(** [buf[i]] as used under [&], [|], [<<] and [^]: [undefined] acts as 0. *)
Definition get (b : t) (i : Z) : Z :=
  if i <? 0 then 0 else nth (Z.to_nat i) b 0.

Definition len (b : t) : Z := Z.of_nat (List.length b).

(** [Buffer.alloc(n)]: [n] zero bytes. *)
Definition alloc (n : Z) : t := repeat 0 (Z.to_nat n).

(** [Buffer.concat([a, b])]. *)
Definition concat (a b : t) : t := a ++ b.

(** Index normalisation of [slice]: negative counts from the end, and the
    result is clamped to [0 .. length]. *)
Definition clamp (b : t) (i : Z) : Z :=
  if i <? 0 then Z.max (len b + i) 0 else Z.min i (len b).

(** [b.slice(s, e)]. *)
Definition slice (b : t) (s e : Z) : t :=
  let s' := clamp b s in
  let e' := clamp b e in
  firstn (Z.to_nat (e' - s')) (skipn (Z.to_nat s') b).

(** [src.copy(target, targetStart, sourceStart, sourceEnd)]: the bytes
    [src[sourceStart .. min(sourceEnd, src.length))] overwrite [target]
    from [targetStart], as far as [target] reaches. *)
Definition copy (src target : t) (tstart sstart send : Z) : t :=
  let chunk := firstn (Z.to_nat (send - sstart)) (skipn (Z.to_nat sstart) src) in
  let room := skipn (Z.to_nat tstart) target in
  let written := firstn (List.length room) chunk in
  firstn (Z.to_nat tstart) target ++ written ++ skipn (List.length written) room.

(** [for (i = 0; i < length; i++) buf[i] = buf[i] ^ mask[i % 4]]. *)
Fixpoint xor_from (i : Z) (mask buf : t) : t :=
  match buf with
  | [] => []
  | x :: rest => Z.lxor x (get mask (i mod 4)) :: xor_from (i + 1) mask rest
  end.

Definition xor_mask (mask buf : t) : t := xor_from 0 mask buf.

End Buffer.

Definition bytes : Type := Buffer.t.

(** [WEBSOCKET_COMPRESS = Buffer.from([0x00, 0x00, 0xFF, 0xFF])]. *)
Definition WEBSOCKET_COMPRESS : bytes := [0x00; 0x00; 0xFF; 0xFF].

(** [buffer_concat(buffers, length)]: allocate [length] bytes and copy the
    buffers one after the other. *)
Fixpoint buffer_concat_from
    (buffers : list bytes) (buffer : bytes) (offset : Z) : bytes :=
  match buffers with
  | [] => buffer
  | b :: rest =>
      buffer_concat_from rest
        (Buffer.copy b buffer offset 0 (Buffer.len b)) (offset + Buffer.len b)
  end.

Definition buffer_concat (buffers : list bytes) (length : Z) : bytes :=
  buffer_concat_from buffers (Buffer.alloc length) 0.

(** ** JavaScript values that cross the API *)

Inductive jsval : Type :=
| JUndefined
| JNull
| JBool (b : bool)
| JNum (n : Z)
| JStr (s : string)
| JBuf (b : bytes)
| JObj (repr : string).

Definition truthy (v : jsval) : bool :=
  match v with
  | JUndefined | JNull => false
  | JBool b => b
  | JNum n => negb (n =? 0)
  | JStr s => negb (String.eqb s EmptyString)
  | JBuf _ | JObj _ => true
  end.

(** [v !== true]. *)
Definition is_true_sentinel (v : jsval) : bool :=
  match v with JBool true => true | _ => false end.

(** [v == true] (loose) on primitives. *)
Definition loose_eq_true (v : jsval) : bool :=
  match v with
  | JBool true => true
  | JNum 1 => true
  | JStr "1" => true
  | _ => false
  end.

(** [typeof(v) === 'object']. *)
Definition typeof_object (v : jsval) : bool :=
  match v with JNull | JBuf _ | JObj _ => true | _ => false end.

(** [a || b]. *)
Definition js_or (a b : jsval) : jsval := if truthy a then a else b.

(** ** Frames handed to the socket

    Modelled from the spec: the frame builder [U.getWebSocketFrame(code,
    message, type, compress, mask)] of utils.js is not part of this file; the
    spec gives it as [buildFrame(code, payload, opcode, compressed, masked)]
    with RSV1 set iff [compressed]. A built frame is kept as the record of
    the five arguments of the call. *)
Record frame : Type := Frame {
  f_code : jsval;
  f_message : jsval;
  f_type : Z;
  f_compress : bool;
  f_mask : bool
}.

Definition getWebSocketFrame
    (code message : jsval) (type : Z) (compress mask : bool) : frame :=
  Frame code message type compress mask.

Definition rsv1 (f : frame) : bool := f_compress f.

(** ** Collaborators outside the file *)

Class Collaborators : Type := {
  (** [U.getMessageLength(buffer, F.isLE)] *)
  getMessageLength : bytes -> Z;
  (** [buffer.toString('utf8')] *)
  toString_utf8 : bytes -> string;
  (** [Buffer.from(v, 'utf8')]; [None] when it throws *)
  Buffer_from : jsval -> option bytes;
  (** [decodeURIComponent(s)]; [None] when it throws *)
  js_decodeURIComponent : string -> option string;
  js_encodeURIComponent : jsval -> string;
  (** [framework_utils.decrypt_data] / [encrypt_data] *)
  decrypt_data : string -> jsval -> string;
  encrypt_data : jsval -> jsval -> jsval;
  (** [s.isJSON()], [s.parseJSON(true)] *)
  isJSON : string -> bool;
  parseJSON : string -> jsval;
  (** [JSON.stringify(v, replacer)], [framework_utils.json2replacer] *)
  JSON_stringify : jsval -> jsval -> jsval;
  json2replacer : jsval;
  (** [v + ''] *)
  ToString : jsval -> string
}.

(** ** The client object *)

(** The receive accumulator [this.current]. [clength] is [current.length]. *)
Record current_t : Type := Current {
  buffer : option bytes;
  type : option Z;
  type2 : option Z;
  final : bool;
  isMask : bool;
  mask : option bytes;
  data : option bytes;
  clength : Z;
  body : option bytes
}.
Definition set_buffer (v : option bytes) (r : current_t) : current_t :=
  Current v (type r) (type2 r) (final r) (isMask r) (mask r) (data r)
    (clength r) (body r).
Definition set_type (v : option Z) (r : current_t) : current_t :=
  Current (buffer r) v (type2 r) (final r) (isMask r) (mask r) (data r)
    (clength r) (body r).
Definition set_type2 (v : option Z) (r : current_t) : current_t :=
  Current (buffer r) (type r) v (final r) (isMask r) (mask r) (data r)
    (clength r) (body r).
Definition set_final (v : bool) (r : current_t) : current_t :=
  Current (buffer r) (type r) (type2 r) v (isMask r) (mask r) (data r)
    (clength r) (body r).
Definition set_isMask (v : bool) (r : current_t) : current_t :=
  Current (buffer r) (type r) (type2 r) (final r) v (mask r) (data r)
    (clength r) (body r).
Definition set_mask (v : option bytes) (r : current_t) : current_t :=
  Current (buffer r) (type r) (type2 r) (final r) (isMask r) v (data r)
    (clength r) (body r).
Definition set_data (v : option bytes) (r : current_t) : current_t :=
  Current (buffer r) (type r) (type2 r) (final r) (isMask r) (mask r) v
    (clength r) (body r).
Definition set_clength (v : Z) (r : current_t) : current_t :=
  Current (buffer r) (type r) (type2 r) (final r) (isMask r) (mask r) (data r)
    v (body r).
Definition set_body (v : option bytes) (r : current_t) : current_t :=
  Current (buffer r) (type r) (type2 r) (final r) (isMask r) (mask r) (data r)
    (clength r) v.
(** [this.options]. [o_length] is [options.length]; it is only ever tested for
    truthiness and compared, so [undefined] is held as 0. *)
Record options_t : Type := Options {
  o_type : string;
  masking : bool;
  compress : bool;
  o_reconnect : Z;
  encodedecode : bool;
  encrypt : jsval;
  o_length : Z;
  reconnectserver : bool
}.
Definition set_o_reconnect (v : Z) (r : options_t) : options_t :=
  Options (o_type r) (masking r) (compress r) v (encodedecode r) (encrypt r)
    (o_length r) (reconnectserver r).

(** A subscriber: [h_once] is the [$once] mark set by [once]. *)
Record handler : Type := Handler { hid : nat; h_once : bool }.

(** A buffer of the inflate queue with its [$continue] mark. *)
Record ibuf : Type := IBuf { ib_bytes : bytes; ib_continue : bool }.

(** The client object. [ping_flag] is [$ping]; [self_type] is the property
    [type] that [sendDeflate] reads as [self.type] and that nothing in the
    file sets. [req], [socket], [inflate] and [deflate] say whether the
    object is present. Left out: [pending], [cookies] and [headers] (used
    for the request only) and [current.inflatedata] (only ever set to
    [null]). *)
Record WebSocketClient : Type := Client {
  current : current_t;
  events : string -> list handler;
  reconnect : Z;
  closed : bool;
  options : options_t;
  url : jsval;
  protocol : jsval;
  origin : jsval;
  typebuffer : bool;
  istext : bool;
  req : bool;
  socket : bool;
  inflate : bool;
  inflatepending : list ibuf;
  inflatelock : bool;
  inflatechunks : option (list bytes);
  inflatechunkslength : Z;
  deflate : bool;
  deflatepending : list bytes;
  deflatelock : bool;
  deflatechunks : option (list bytes);
  deflatechunkslength : Z;
  isClosed : bool;
  _isClosed : bool;
  closemessage : jsval;
  closecode : jsval;
  ping_flag : jsval;
  self_type : jsval
}.
Definition set_current (v : current_t) (r : WebSocketClient) : WebSocketClient :=
  Client v (events r) (reconnect r) (closed r) (options r) (url r)
    (protocol r) (origin r) (typebuffer r) (istext r) (req r) (socket r)
    (inflate r) (inflatepending r) (inflatelock r) (inflatechunks r)
    (inflatechunkslength r) (deflate r) (deflatepending r) (deflatelock r)
    (deflatechunks r) (deflatechunkslength r) (isClosed r) (_isClosed r)
    (closemessage r) (closecode r) (ping_flag r) (self_type r).
Definition set_events (v : string -> list handler)
    (r : WebSocketClient) : WebSocketClient :=
  Client (current r) v (reconnect r) (closed r) (options r) (url r)
    (protocol r) (origin r) (typebuffer r) (istext r) (req r) (socket r)
    (inflate r) (inflatepending r) (inflatelock r) (inflatechunks r)
    (inflatechunkslength r) (deflate r) (deflatepending r) (deflatelock r)
    (deflatechunks r) (deflatechunkslength r) (isClosed r) (_isClosed r)
    (closemessage r) (closecode r) (ping_flag r) (self_type r).
Definition set_reconnect (v : Z) (r : WebSocketClient) : WebSocketClient :=
  Client (current r) (events r) v (closed r) (options r) (url r) (protocol r)
    (origin r) (typebuffer r) (istext r) (req r) (socket r) (inflate r)
    (inflatepending r) (inflatelock r) (inflatechunks r)
    (inflatechunkslength r) (deflate r) (deflatepending r) (deflatelock r)
    (deflatechunks r) (deflatechunkslength r) (isClosed r) (_isClosed r)
    (closemessage r) (closecode r) (ping_flag r) (self_type r).
Definition set_closed (v : bool) (r : WebSocketClient) : WebSocketClient :=
  Client (current r) (events r) (reconnect r) v (options r) (url r)
    (protocol r) (origin r) (typebuffer r) (istext r) (req r) (socket r)
    (inflate r) (inflatepending r) (inflatelock r) (inflatechunks r)
    (inflatechunkslength r) (deflate r) (deflatepending r) (deflatelock r)
    (deflatechunks r) (deflatechunkslength r) (isClosed r) (_isClosed r)
    (closemessage r) (closecode r) (ping_flag r) (self_type r).
Definition set_options (v : options_t) (r : WebSocketClient) : WebSocketClient :=
  Client (current r) (events r) (reconnect r) (closed r) v (url r)
    (protocol r) (origin r) (typebuffer r) (istext r) (req r) (socket r)
    (inflate r) (inflatepending r) (inflatelock r) (inflatechunks r)
    (inflatechunkslength r) (deflate r) (deflatepending r) (deflatelock r)
    (deflatechunks r) (deflatechunkslength r) (isClosed r) (_isClosed r)
    (closemessage r) (closecode r) (ping_flag r) (self_type r).
Definition set_url (v : jsval) (r : WebSocketClient) : WebSocketClient :=
  Client (current r) (events r) (reconnect r) (closed r) (options r) v
    (protocol r) (origin r) (typebuffer r) (istext r) (req r) (socket r)
    (inflate r) (inflatepending r) (inflatelock r) (inflatechunks r)
    (inflatechunkslength r) (deflate r) (deflatepending r) (deflatelock r)
    (deflatechunks r) (deflatechunkslength r) (isClosed r) (_isClosed r)
    (closemessage r) (closecode r) (ping_flag r) (self_type r).
Definition set_protocol (v : jsval) (r : WebSocketClient) : WebSocketClient :=
  Client (current r) (events r) (reconnect r) (closed r) (options r) (url r) v
    (origin r) (typebuffer r) (istext r) (req r) (socket r) (inflate r)
    (inflatepending r) (inflatelock r) (inflatechunks r)
    (inflatechunkslength r) (deflate r) (deflatepending r) (deflatelock r)
    (deflatechunks r) (deflatechunkslength r) (isClosed r) (_isClosed r)
    (closemessage r) (closecode r) (ping_flag r) (self_type r).
Definition set_origin (v : jsval) (r : WebSocketClient) : WebSocketClient :=
  Client (current r) (events r) (reconnect r) (closed r) (options r) (url r)
    (protocol r) v (typebuffer r) (istext r) (req r) (socket r) (inflate r)
    (inflatepending r) (inflatelock r) (inflatechunks r)
    (inflatechunkslength r) (deflate r) (deflatepending r) (deflatelock r)
    (deflatechunks r) (deflatechunkslength r) (isClosed r) (_isClosed r)
    (closemessage r) (closecode r) (ping_flag r) (self_type r).
Definition set_typebuffer (v : bool) (r : WebSocketClient) : WebSocketClient :=
  Client (current r) (events r) (reconnect r) (closed r) (options r) (url r)
    (protocol r) (origin r) v (istext r) (req r) (socket r) (inflate r)
    (inflatepending r) (inflatelock r) (inflatechunks r)
    (inflatechunkslength r) (deflate r) (deflatepending r) (deflatelock r)
    (deflatechunks r) (deflatechunkslength r) (isClosed r) (_isClosed r)
    (closemessage r) (closecode r) (ping_flag r) (self_type r).
Definition set_istext (v : bool) (r : WebSocketClient) : WebSocketClient :=
  Client (current r) (events r) (reconnect r) (closed r) (options r) (url r)
    (protocol r) (origin r) (typebuffer r) v (req r) (socket r) (inflate r)
    (inflatepending r) (inflatelock r) (inflatechunks r)
    (inflatechunkslength r) (deflate r) (deflatepending r) (deflatelock r)
    (deflatechunks r) (deflatechunkslength r) (isClosed r) (_isClosed r)
    (closemessage r) (closecode r) (ping_flag r) (self_type r).
Definition set_req (v : bool) (r : WebSocketClient) : WebSocketClient :=
  Client (current r) (events r) (reconnect r) (closed r) (options r) (url r)
    (protocol r) (origin r) (typebuffer r) (istext r) v (socket r) (inflate r)
    (inflatepending r) (inflatelock r) (inflatechunks r)
    (inflatechunkslength r) (deflate r) (deflatepending r) (deflatelock r)
    (deflatechunks r) (deflatechunkslength r) (isClosed r) (_isClosed r)
    (closemessage r) (closecode r) (ping_flag r) (self_type r).
Definition set_socket (v : bool) (r : WebSocketClient) : WebSocketClient :=
  Client (current r) (events r) (reconnect r) (closed r) (options r) (url r)
    (protocol r) (origin r) (typebuffer r) (istext r) (req r) v (inflate r)
    (inflatepending r) (inflatelock r) (inflatechunks r)
    (inflatechunkslength r) (deflate r) (deflatepending r) (deflatelock r)
    (deflatechunks r) (deflatechunkslength r) (isClosed r) (_isClosed r)
    (closemessage r) (closecode r) (ping_flag r) (self_type r).
Definition set_inflate (v : bool) (r : WebSocketClient) : WebSocketClient :=
  Client (current r) (events r) (reconnect r) (closed r) (options r) (url r)
    (protocol r) (origin r) (typebuffer r) (istext r) (req r) (socket r) v
    (inflatepending r) (inflatelock r) (inflatechunks r)
    (inflatechunkslength r) (deflate r) (deflatepending r) (deflatelock r)
    (deflatechunks r) (deflatechunkslength r) (isClosed r) (_isClosed r)
    (closemessage r) (closecode r) (ping_flag r) (self_type r).
Definition set_inflatepending (v : list ibuf) (r : WebSocketClient) : WebSocketClient :=
  Client (current r) (events r) (reconnect r) (closed r) (options r) (url r)
    (protocol r) (origin r) (typebuffer r) (istext r) (req r) (socket r)
    (inflate r) v (inflatelock r) (inflatechunks r) (inflatechunkslength r)
    (deflate r) (deflatepending r) (deflatelock r) (deflatechunks r)
    (deflatechunkslength r) (isClosed r) (_isClosed r) (closemessage r)
    (closecode r) (ping_flag r) (self_type r).
Definition set_inflatelock (v : bool) (r : WebSocketClient) : WebSocketClient :=
  Client (current r) (events r) (reconnect r) (closed r) (options r) (url r)
    (protocol r) (origin r) (typebuffer r) (istext r) (req r) (socket r)
    (inflate r) (inflatepending r) v (inflatechunks r) (inflatechunkslength r)
    (deflate r) (deflatepending r) (deflatelock r) (deflatechunks r)
    (deflatechunkslength r) (isClosed r) (_isClosed r) (closemessage r)
    (closecode r) (ping_flag r) (self_type r).
Definition set_inflatechunks (v : option (list bytes))
    (r : WebSocketClient) : WebSocketClient :=
  Client (current r) (events r) (reconnect r) (closed r) (options r) (url r)
    (protocol r) (origin r) (typebuffer r) (istext r) (req r) (socket r)
    (inflate r) (inflatepending r) (inflatelock r) v (inflatechunkslength r)
    (deflate r) (deflatepending r) (deflatelock r) (deflatechunks r)
    (deflatechunkslength r) (isClosed r) (_isClosed r) (closemessage r)
    (closecode r) (ping_flag r) (self_type r).
Definition set_inflatechunkslength (v : Z) (r : WebSocketClient) : WebSocketClient :=
  Client (current r) (events r) (reconnect r) (closed r) (options r) (url r)
    (protocol r) (origin r) (typebuffer r) (istext r) (req r) (socket r)
    (inflate r) (inflatepending r) (inflatelock r) (inflatechunks r) v
    (deflate r) (deflatepending r) (deflatelock r) (deflatechunks r)
    (deflatechunkslength r) (isClosed r) (_isClosed r) (closemessage r)
    (closecode r) (ping_flag r) (self_type r).
Definition set_deflate (v : bool) (r : WebSocketClient) : WebSocketClient :=
  Client (current r) (events r) (reconnect r) (closed r) (options r) (url r)
    (protocol r) (origin r) (typebuffer r) (istext r) (req r) (socket r)
    (inflate r) (inflatepending r) (inflatelock r) (inflatechunks r)
    (inflatechunkslength r) v (deflatepending r) (deflatelock r)
    (deflatechunks r) (deflatechunkslength r) (isClosed r) (_isClosed r)
    (closemessage r) (closecode r) (ping_flag r) (self_type r).
Definition set_deflatepending (v : list bytes)
    (r : WebSocketClient) : WebSocketClient :=
  Client (current r) (events r) (reconnect r) (closed r) (options r) (url r)
    (protocol r) (origin r) (typebuffer r) (istext r) (req r) (socket r)
    (inflate r) (inflatepending r) (inflatelock r) (inflatechunks r)
    (inflatechunkslength r) (deflate r) v (deflatelock r) (deflatechunks r)
    (deflatechunkslength r) (isClosed r) (_isClosed r) (closemessage r)
    (closecode r) (ping_flag r) (self_type r).
Definition set_deflatelock (v : bool) (r : WebSocketClient) : WebSocketClient :=
  Client (current r) (events r) (reconnect r) (closed r) (options r) (url r)
    (protocol r) (origin r) (typebuffer r) (istext r) (req r) (socket r)
    (inflate r) (inflatepending r) (inflatelock r) (inflatechunks r)
    (inflatechunkslength r) (deflate r) (deflatepending r) v (deflatechunks r)
    (deflatechunkslength r) (isClosed r) (_isClosed r) (closemessage r)
    (closecode r) (ping_flag r) (self_type r).
Definition set_deflatechunks (v : option (list bytes))
    (r : WebSocketClient) : WebSocketClient :=
  Client (current r) (events r) (reconnect r) (closed r) (options r) (url r)
    (protocol r) (origin r) (typebuffer r) (istext r) (req r) (socket r)
    (inflate r) (inflatepending r) (inflatelock r) (inflatechunks r)
    (inflatechunkslength r) (deflate r) (deflatepending r) (deflatelock r) v
    (deflatechunkslength r) (isClosed r) (_isClosed r) (closemessage r)
    (closecode r) (ping_flag r) (self_type r).
Definition set_deflatechunkslength (v : Z) (r : WebSocketClient) : WebSocketClient :=
  Client (current r) (events r) (reconnect r) (closed r) (options r) (url r)
    (protocol r) (origin r) (typebuffer r) (istext r) (req r) (socket r)
    (inflate r) (inflatepending r) (inflatelock r) (inflatechunks r)
    (inflatechunkslength r) (deflate r) (deflatepending r) (deflatelock r)
    (deflatechunks r) v (isClosed r) (_isClosed r) (closemessage r)
    (closecode r) (ping_flag r) (self_type r).
Definition set_isClosed (v : bool) (r : WebSocketClient) : WebSocketClient :=
  Client (current r) (events r) (reconnect r) (closed r) (options r) (url r)
    (protocol r) (origin r) (typebuffer r) (istext r) (req r) (socket r)
    (inflate r) (inflatepending r) (inflatelock r) (inflatechunks r)
    (inflatechunkslength r) (deflate r) (deflatepending r) (deflatelock r)
    (deflatechunks r) (deflatechunkslength r) v (_isClosed r) (closemessage r)
    (closecode r) (ping_flag r) (self_type r).
Definition set__isClosed (v : bool) (r : WebSocketClient) : WebSocketClient :=
  Client (current r) (events r) (reconnect r) (closed r) (options r) (url r)
    (protocol r) (origin r) (typebuffer r) (istext r) (req r) (socket r)
    (inflate r) (inflatepending r) (inflatelock r) (inflatechunks r)
    (inflatechunkslength r) (deflate r) (deflatepending r) (deflatelock r)
    (deflatechunks r) (deflatechunkslength r) (isClosed r) v (closemessage r)
    (closecode r) (ping_flag r) (self_type r).
Definition set_closemessage (v : jsval) (r : WebSocketClient) : WebSocketClient :=
  Client (current r) (events r) (reconnect r) (closed r) (options r) (url r)
    (protocol r) (origin r) (typebuffer r) (istext r) (req r) (socket r)
    (inflate r) (inflatepending r) (inflatelock r) (inflatechunks r)
    (inflatechunkslength r) (deflate r) (deflatepending r) (deflatelock r)
    (deflatechunks r) (deflatechunkslength r) (isClosed r) (_isClosed r) v
    (closecode r) (ping_flag r) (self_type r).
Definition set_closecode (v : jsval) (r : WebSocketClient) : WebSocketClient :=
  Client (current r) (events r) (reconnect r) (closed r) (options r) (url r)
    (protocol r) (origin r) (typebuffer r) (istext r) (req r) (socket r)
    (inflate r) (inflatepending r) (inflatelock r) (inflatechunks r)
    (inflatechunkslength r) (deflate r) (deflatepending r) (deflatelock r)
    (deflatechunks r) (deflatechunkslength r) (isClosed r) (_isClosed r)
    (closemessage r) v (ping_flag r) (self_type r).
Definition set_ping_flag (v : jsval) (r : WebSocketClient) : WebSocketClient :=
  Client (current r) (events r) (reconnect r) (closed r) (options r) (url r)
    (protocol r) (origin r) (typebuffer r) (istext r) (req r) (socket r)
    (inflate r) (inflatepending r) (inflatelock r) (inflatechunks r)
    (inflatechunkslength r) (deflate r) (deflatepending r) (deflatelock r)
    (deflatechunks r) (deflatechunkslength r) (isClosed r) (_isClosed r)
    (closemessage r) (closecode r) v (self_type r).

(** ** What the client does to its environment *)

Inductive effect : Type :=
| SocketWrite (f : frame)
| SocketEnd (f : frame)
| SocketDestroy
| SocketConfigure
| SocketRemoveAllListeners
| ReqGet
| ReqAbort
| CreateInflateRaw
| CreateDeflateRaw
| InflateWrite (b : bytes)
| InflateFlush
| DeflateWrite (b : bytes)
| DeflateFlush
| InflateRemoveAllListeners
| DeflateRemoveAllListeners
| SetTimeout (delay : Z)
| Emit (name : string) (args : list jsval) (called : list handler)
| Stat (counter : string) (delta : Z).

(** The client together with what it has done to its environment:
    [trace] holds the effects in order, [inflate_flushes] and
    [deflate_flushes] the flush callbacks that have not run yet (for the
    inflate stream with the buffer each one has captured), and [timers]
    the delays of the reconnect timers that have not fired. *)
Record St : Type := MkSt {
  self : WebSocketClient;
  trace : list effect;
  inflate_flushes : list ibuf;
  deflate_flushes : list unit;
  timers : list Z
}.
Definition set_self (v : WebSocketClient) (r : St) : St :=
  MkSt v (trace r) (inflate_flushes r) (deflate_flushes r) (timers r).
Definition set_trace (v : list effect) (r : St) : St :=
  MkSt (self r) v (inflate_flushes r) (deflate_flushes r) (timers r).
Definition set_inflate_flushes (v : list ibuf) (r : St) : St :=
  MkSt (self r) (trace r) v (deflate_flushes r) (timers r).
Definition set_deflate_flushes (v : list unit) (r : St) : St :=
  MkSt (self r) (trace r) (inflate_flushes r) v (timers r).
Definition set_timers (v : list Z) (r : St) : St :=
  MkSt (self r) (trace r) (inflate_flushes r) (deflate_flushes r) v.

(** ** The monad of the methods: state, trace and JavaScript exceptions *)

Inductive exn : Type :=
| ReferenceError (ident : string)
| TypeError (what : string)
| RangeError (what : string).

Inductive outcome (A : Type) : Type :=
| Ok (a : A)
| Throw (e : exn).

Arguments Ok {A} a.
Arguments Throw {A} e.

Definition M (A : Type) : Type := St -> outcome A * St.

Definition ret {A} (a : A) : M A := fun st => (Ok a, st).

Definition bind {A B} (c : M A) (k : A -> M B) : M B :=
  fun st =>
    match c st with
    | (Ok a, st') => k a st'
    | (Throw e, st') => (Throw e, st')
    end.

Definition throw {A} (e : exn) : M A := fun st => (Throw e, st).

Declare Scope js_scope.
Delimit Scope js_scope with js.
Notation "x <- c ;; k" := (bind c (fun x => k))
  (at level 61, c at next level, right associativity) : js_scope.
Notation "c ;; k" := (bind c (fun _ => k))
  (at level 61, right associativity) : js_scope.
Local Open Scope js_scope.

Definition this : M WebSocketClient := fun st => (Ok (self st), st).

Definition modify (f : WebSocketClient -> WebSocketClient) : M unit :=
  fun st => (Ok tt, set_self (f (self st)) st).

Definition modify_current (f : current_t -> current_t) : M unit :=
  modify (fun ws => set_current (f (current ws)) ws).

Definition tell (e : effect) : M unit :=
  fun st => (Ok tt, set_trace (trace st ++ [e]) st).

Definition skip : M unit := ret tt.

Definition when (b : bool) (c : M unit) : M unit := if b then c else skip.

(** The final state of a computation, whatever its outcome. *)
Definition exec {A} (c : M A) (st : St) : St := snd (c st).

(** ** The constructor *)

Definition current_init : current_t :=
  Current None None None false false None None 0 None.

Definition options_init : options_t :=
  Options "json" false true 3000 false JUndefined 0 false.

(** [new WebSocketClient()]. *)
Definition create : WebSocketClient :=
  Client current_init (fun _ => []) 0 true options_init
         JUndefined JUndefined JUndefined false false
         false false
         false [] false None 0
         false [] false None 0
         false false JUndefined JUndefined JUndefined JUndefined.

Definition start (ws : WebSocketClient) : St := MkSt ws [] [] [] [].

(** ** Event dispatch *)

(** [emit(name, ...)]: every subscriber is called; subscribers marked
    [$once] are then dropped. *)
Definition emit (name : string) (args : list jsval) : M unit :=
  ws <- this ;;
  match events ws name with
  | [] => skip
  | evt =>
      tell (Emit name args evt) ;;
      when (existsb h_once evt)
        (modify (set_events (fun n =>
           if String.eqb n name
           then filter (fun h => negb (h_once h)) evt
           else events ws n)))
  end.

(** [this.$events[name] && this.emit(name, ...)]. *)
Definition emit_if_subscribed (name : string) (args : list jsval) : M unit :=
  ws <- this ;;
  match events ws name with
  | [] => skip
  | _ => emit name args
  end.

Definition on (name : string) (fn : handler) : M unit :=
  modify (fun ws => set_events (fun n =>
    if String.eqb n name then events ws n ++ [fn] else events ws n) ws).

Definition once (name : string) (fn : handler) : M unit :=
  on name (Handler (hid fn) true).

(** ** Socket access *)

Definition socket_write (f : frame) : M unit :=
  ws <- this ;;
  if socket ws then tell (SocketWrite f) else throw (TypeError "socket").

Definition socket_end (f : frame) : M unit :=
  ws <- this ;;
  if socket ws then tell (SocketEnd f) else throw (TypeError "socket").

(** [free()]. *)
Definition free : M unit :=
  ws <- this ;;
  when (socket ws) (tell SocketDestroy) ;;
  modify (set_socket false) ;;
  when (req ws) (tell ReqAbort) ;;
  modify (set_req false).

(** ** close *)

Section Client.

Context {C : Collaborators}.

(** [close(message, code)]. *)
Definition close (message code : jsval) : M unit :=
  (if negb (is_true_sentinel message)
   then modify (fun ws => set_options (set_o_reconnect 0 (options ws)) ws)
   else skip) ;;
  let message := if negb (is_true_sentinel message) then message else JUndefined in
  ws <- this ;;
  if negb (isClosed ws) then
    modify (set_isClosed true) ;;
    let message :=
      if truthy message && encodedecode (options ws)
      then JStr (js_encodeURIComponent message) else message in
    socket_end (getWebSocketFrame (js_or code (JNum 1000))
                  (js_or message (JStr EmptyString))
                  0x08 false (masking (options ws)))
  else skip.

(** ** The frame parser *)

(** [$parse()]: [true] when [current] holds a complete frame. *)
Definition parse : M bool :=
  ws <- this ;;
  match buffer (current ws) with
  | None => ret false
  | Some b =>
    if Buffer.len b <=? 2 then ret false else
    let type := Z.land (Buffer.get b 0) 0x0f in
    let final := Z.shiftr (Z.land (Buffer.get b 0) 0x80) 7 =? 0x01 in
    let isMask := Z.shiftr (Z.land (Buffer.get b 1) 0xfe) 7 =? 0x01 in
    modify_current
      (fun c => set_isMask isMask (set_final final (set_type (Some type) c))) ;;
    let length := getMessageLength b in
    if length <=? 0 then ret false else
    let index := Z.land (Buffer.get b 1) 0x7f in
    let index := (if index =? 126 then 4 else if index =? 127 then 10 else 2)
                 + (if isMask then 4 else 0) in
    let mlength := index + length in
    if negb (o_length (options ws) =? 0) && (o_length (options ws) <? mlength) then
      close (JStr "Frame is too large") (JNum 1009) ;;
      ret false
    else if Buffer.len b <? mlength then ret false
    else
      modify_current (set_clength mlength) ;;
      (if negb (type =? 0x09) && negb (type =? 0x0A) then
         let key := Buffer.copy b (Buffer.alloc 4) 0 (index - 4) index in
         when isMask (modify_current (set_mask (Some key))) ;;
         if inflate ws then
           let buf := Buffer.copy b (Buffer.alloc length) 0 index mlength in
           let buf := if isMask then Buffer.xor_mask key buf else buf in
           modify (fun w => set_inflatepending
                              (inflatepending w ++ [IBuf buf (negb final)]) w)
         else
           modify_current
             (set_data (Some (Buffer.copy b (Buffer.alloc length) 0 index mlength)))
       else skip) ;;
      ret true
  end.

(** [$readbody()]: the payload of the current frame, un-masked when the
    frame carries a mask. *)
Definition readbody : M bytes :=
  ws <- this ;;
  match data (current ws) with
  | None => throw (TypeError "current.data")
  | Some d =>
      if isMask (current ws)
      then ret (Buffer.xor_mask
                  (match mask (current ws) with Some m => m | None => [] end) d)
      else ret d
  end.

(** [$decodeURIComponent(value)]: the value itself when decoding throws. *)
Definition decodeURIComponent_safe (value : string) : string :=
  match js_decodeURIComponent value with
  | Some s => s
  | None => value
  end.

(** The text of a message body in the [json] and text modes of [$decode]. *)
Definition decode_text (ws : WebSocketClient) (b : bytes) : string :=
  let data := toString_utf8 b in
  let data := if encodedecode (options ws) then decodeURIComponent_safe data else data in
  if truthy (encrypt (options ws))
  then decrypt_data data (encrypt (options ws))
  else data.

(** [$decode()]. The body is a [Buffer] at both call sites
    ([ondata_message] and the flush callback of [parseInflate]); the string
    modes are modelled for that case, and the case without a body is
    closed off with a [TypeError]. *)
Definition decode : M unit :=
  ws <- this ;;
  let data := match body (current ws) with Some b => JBuf b | None => JNull end in
  tell (Stat "performance.message" 1) ;;
  if typebuffer ws then emit "message" [data]
  else
    (if String.eqb (o_type (options ws)) "binary"
        || String.eqb (o_type (options ws)) "buffer"
     then emit "message" [data]
     else if String.eqb (o_type (options ws)) "json" then
       match body (current ws) with
       | None => throw (TypeError "data")
       | Some b =>
           let text := decode_text ws b in
           if isJSON text then
             match parseJSON text with
             | JUndefined => skip
             | tmp => emit "message" [tmp]
             end
           else skip
       end
     else
       match body (current ws) with
       | None => throw (TypeError "data")
       | Some b => emit "message" [JStr (decode_text ws b)]
       end) ;;
    modify_current (set_body None).

(** ** The inflate pipeline *)

Definition inflate_write (b : bytes) : M unit :=
  ws <- this ;;
  if inflate ws then tell (InflateWrite b) else throw (TypeError "inflate").

(** [inflate.flush(callback)]: the callback keeps the dequeued [buf]. *)
Definition inflate_flush (buf : ibuf) : M unit :=
  ws <- this ;;
  if inflate ws
  then tell InflateFlush ;;
       (fun st => (Ok tt, set_inflate_flushes (inflate_flushes st ++ [buf]) st))
  else throw (TypeError "inflate").

(** [parseInflate()], up to the registration of the flush callback. *)
Definition parseInflate : M unit :=
  ws <- this ;;
  if inflatelock ws then skip
  else
    match inflatepending ws with
    | [] => skip
    | buf :: rest =>
        modify (set_inflatepending rest) ;;
        modify (set_inflatechunks (Some [])) ;;
        modify (set_inflatechunkslength 0) ;;
        modify (set_inflatelock true) ;;
        inflate_write (ib_bytes buf) ;;
        (if negb (ib_continue buf) then inflate_write WEBSOCKET_COMPRESS else skip) ;;
        inflate_flush buf
    end.

(** The callback handed to [inflate.flush] by [parseInflate]. *)
Definition parseInflate_flushed (buf : ibuf) : M unit :=
  ws <- this ;;
  match inflatechunks ws with
  | None => skip
  | Some chunks =>
      let data := buffer_concat chunks (inflatechunkslength ws) in
      modify (set_inflatechunks None) ;;
      modify (set_inflatelock false) ;;
      if negb (o_length (options ws) =? 0) && (o_length (options ws) <? Buffer.len data)
      then close (JStr "Frame is too large") (JNum 1009)
      else
        modify_current (fun c =>
          set_body (Some (match body c with
                          | Some b => Buffer.concat b data
                          | None => data
                          end)) c) ;;
        (if negb (ib_continue buf) then decode else skip) ;;
        parseInflate
  end.

(** [websocket_inflate(data)], the ['data'] listener of the inflate stream. *)
Definition websocket_inflate (chunk : bytes) : M unit :=
  ws <- this ;;
  match inflatechunks ws with
  | None => throw (TypeError "inflatechunks")
  | Some chunks =>
      modify (set_inflatechunks (Some (chunks ++ [chunk]))) ;;
      modify (set_inflatechunkslength (inflatechunkslength ws + Buffer.len chunk))
  end.

(** ** Closing *)

(** [$onclose()]. *)
Definition onclose : M unit :=
  ws <- this ;;
  if _isClosed ws then skip
  else
    modify (set_isClosed true) ;;
    modify (set__isClosed true) ;;
    (if inflate ws then
       tell InflateRemoveAllListeners ;;
       modify (set_inflate false) ;;
       modify (set_inflatechunks None)
     else skip) ;;
    (if deflate ws then
       tell DeflateRemoveAllListeners ;;
       modify (set_deflate false) ;;
       modify (set_deflatechunks None)
     else skip) ;;
    emit_if_subscribed "close" [closecode ws; closemessage ws] ;;
    when (socket ws) (tell SocketRemoveAllListeners).

(** [$onerror(err)]. *)
Definition onerror (err : jsval) : M unit :=
  emit_if_subscribed "error" [err] ;;
  ws <- this ;;
  if negb (isClosed ws) then
    modify (set_isClosed true) ;;
    onclose
  else skip.

(** ** The data handler *)

(** The body of the [text] and [binary] cases of [$ondata]. *)
Definition ondata_message : M unit :=
  ws <- this ;;
  if inflate ws then
    (if final (current ws) then parseInflate else skip)
  else
    (match body (current ws), data (current ws) with
     | Some b, Some d => modify_current (set_body (Some (Buffer.concat b d)))
     | Some b, None => throw (TypeError "current.data")
     | None, d => modify_current (set_body d)
     end) ;;
    (if final (current ws) then decode else skip).

(** The [close] case of [$ondata]: the code and the reason are read at the
    fixed offsets 2 and 4 of the accumulator. *)
Definition ondata_close : M unit :=
  ws <- this ;;
  match buffer (current ws) with
  | None => throw (TypeError "current.buffer")
  | Some b =>
      let closemessage := toString_utf8 (Buffer.slice b 4 (Buffer.len b)) in
      let closecode := Z.lor (Z.shiftl (Buffer.get b 2) 8) (Buffer.get b 3) in
      let closemessage :=
        if negb (String.eqb closemessage EmptyString) && encodedecode (options ws)
        then decodeURIComponent_safe closemessage else closemessage in
      modify (set_closemessage (JStr closemessage)) ;;
      modify (set_closecode (JNum closecode)) ;;
      close JUndefined JUndefined
  end.

(** The dispatch of [$ondata] on the opcode of the frame that [$parse]
    has found: the update of [current.type2] and the [switch]. *)
Definition ondata_dispatch : M unit :=
  ws <- this ;;
  let cur := current ws in
  let type2' :=
    if negb (final cur) && negb (match type cur with Some 0 => true | _ => false end)
    then type cur else type2 cur in
  modify_current (set_type2 type2') ;;
  match (match type cur with Some 0 => type2' | t => t end) with
  | Some 0x01 => ondata_message
  | Some 0x02 => ondata_message
  | Some 0x08 => ondata_close
  | Some 0x09 =>
      socket_write (getWebSocketFrame (JNum 0) (JStr "PONG") 0x0A false
                      (masking (options ws))) ;;
      modify_current (set_buffer None) ;;
      modify (set_ping_flag (JBool true))
  | Some 0x0a =>
      modify (set_ping_flag (JBool true)) ;;
      modify_current (set_buffer None)
  | _ => skip
  end.

(** [$ondata(data)]. The source recurses once per frame of the
    accumulator; [depth] bounds the nesting of these calls. *)
Fixpoint ondata_rec (depth : nat) (chunk : option bytes) : M unit :=
  match depth with
  | O => throw (RangeError "Maximum call stack size exceeded")
  | S depth' =>
    ws <- this ;;
    if isClosed ws then skip
    else
      (match chunk with
       | Some d =>
           modify_current (fun c =>
             set_buffer (Some (match buffer c with
                               | Some b => Buffer.concat b d
                               | None => d
                               end)) c)
       | None => skip
       end) ;;
      parsed <- parse ;;
      if negb parsed then skip
      else
        ondata_dispatch ;;
        ws <- this ;;
        match buffer (current ws) with
        | None => skip
        | Some b =>
            let b' := Buffer.slice b (clength (current ws)) (Buffer.len b) in
            modify_current (set_buffer (Some b')) ;;
            if negb (Buffer.len b' =? 0) then ondata_rec depth' None else skip
        end
  end.

(** Each nested call consumes a frame of at least three bytes, so the
    number of buffered bytes bounds the depth. *)
Definition ondata (chunk : bytes) : M unit :=
  fun st =>
    let held := match buffer (current (self st)) with
                | Some b => List.length b
                | None => O
                end in
    ondata_rec (S (held + List.length chunk)) (Some chunk) st.

(** ** The send path *)

Definition deflate_write (b : bytes) : M unit :=
  ws <- this ;;
  if deflate ws then tell (DeflateWrite b) else throw (TypeError "deflate").

Definition deflate_flush : M unit :=
  ws <- this ;;
  if deflate ws
  then tell DeflateFlush ;;
       (fun st => (Ok tt, set_deflate_flushes (deflate_flushes st ++ [tt]) st))
  else throw (TypeError "deflate").

(** [sendDeflate()], up to the registration of the flush callback. *)
Definition sendDeflate : M unit :=
  ws <- this ;;
  if deflatelock ws then skip
  else
    match deflatepending ws with
    | [] => skip
    | buf :: rest =>
        modify (set_deflatepending rest) ;;
        modify (set_deflatechunks (Some [])) ;;
        modify (set_deflatechunkslength 0) ;;
        modify (set_deflatelock true) ;;
        deflate_write buf ;;
        deflate_flush
    end.

(** [self.type === 1 ? 0x02 : 0x01], the opcode of a deflated frame. *)
Definition deflate_opcode (ws : WebSocketClient) : Z :=
  match self_type ws with
  | JNum 1 => 0x02
  | _ => 0x01
  end.

(** The callback handed to [deflate.flush] by [sendDeflate]. *)
Definition sendDeflate_flushed : M unit :=
  ws <- this ;;
  match deflatechunks ws with
  | None => skip
  | Some chunks =>
      let data := buffer_concat chunks (deflatechunkslength ws) in
      let data := Buffer.slice data 0 (Buffer.len data - 4) in
      modify (set_deflatelock false) ;;
      modify (set_deflatechunks None) ;;
      socket_write (getWebSocketFrame (JNum 0) (JBuf data) (deflate_opcode ws) true
                      (masking (options ws))) ;;
      sendDeflate
  end.

(** [websocket_deflate(data)], the ['data'] listener of the deflate stream. *)
Definition websocket_deflate (chunk : bytes) : M unit :=
  ws <- this ;;
  match deflatechunks ws with
  | None => throw (TypeError "deflatechunks")
  | Some chunks =>
      modify (set_deflatechunks (Some (chunks ++ [chunk]))) ;;
      modify (set_deflatechunkslength (deflatechunkslength ws + Buffer.len chunk))
  end.

Definition buffer_from (v : jsval) : M bytes :=
  match Buffer_from v with
  | Some b => ret b
  | None => throw (TypeError "Buffer.from")
  end.

(** [send(message, raw, replacer)]. *)
Definition send (message : jsval) (raw : bool) (replacer : jsval) : M bool :=
  ws <- this ;;
  if isClosed ws || closed ws then ret false
  else
    let type := o_type (options ws) in
    (if istext ws then
       let stringify :=
         JSON_stringify message
           (if loose_eq_true replacer then json2replacer else replacer) in
       let data :=
         if String.eqb type "json" then (if raw then message else stringify)
         else if typeof_object message then stringify
         else JStr (ToString message) in
       let data :=
         if truthy (encrypt (options ws)) then encrypt_data data (encrypt (options ws))
         else data in
       let data :=
         if encodedecode (options ws) && truthy data
         then JStr (js_encodeURIComponent data)
         else data in
       payload <- buffer_from data ;;
       if deflate ws then
         modify (fun w => set_deflatepending (deflatepending w ++ [payload]) w) ;;
         sendDeflate
       else
         socket_write (getWebSocketFrame (JNum 0) (JBuf payload) 0x01 false
                         (masking (options ws)))
     else if truthy message then
       payload <- (match message with
                   | JBuf b => ret b
                   | _ => buffer_from message
                   end) ;;
       if deflate ws then
         modify (fun w => set_deflatepending (deflatepending w ++ [payload]) w) ;;
         sendDeflate
       else
         socket_write (getWebSocketFrame (JNum 0) (JBuf payload) 0x02 false
                         (masking (options ws)))
     else skip) ;;
    tell (Stat "response.websocket" 1) ;;
    ret true.

(** The value of [self.options.masking] inside [ping]. The function
    declares no [self] (unlike [send], [close] or [sendDeflate], which
    start with [var self = this]) and neither does the module, so the
    identifier is unresolvable and evaluating the argument list throws. *)
Definition ping_self_options_masking : M bool :=
  throw (ReferenceError "self").

(** [ping()]. In [this.socket.write(U.getWebSocketFrame(...))] the method
    [this.socket.write] is looked up first, which throws a [TypeError]
    when the client holds no socket; then the arguments of
    [U.getWebSocketFrame] are evaluated, before [socket.write] is
    entered. *)
Definition ping : M unit :=
  ws <- this ;;
  if negb (isClosed ws) then
    (if socket ws then
       m <- ping_self_options_masking ;;
       socket_write (getWebSocketFrame (JNum 0) (JStr "PING") 0x09 false m)
     else throw (TypeError "socket")) ;;
    modify (set_ping_flag (JBool false))
  else skip.

(** ** Connection life cycle *)

(** [connect(url, protocol, origin)], as far as the client object and the
    request are concerned; the request options are not modelled. *)
Definition connect (url' protocol' origin' : jsval) : M unit :=
  modify (set_url url') ;;
  modify (set_origin origin') ;;
  modify (set_protocol protocol') ;;
  ws <- this ;;
  let tb := String.eqb (o_type (options ws)) "buffer" in
  modify (set_typebuffer tb) ;;
  modify (set_istext (negb (String.eqb (o_type (options ws)) "binary") && negb tb)) ;;
  tell (Stat "performance.online" 1) ;;
  tell ReqGet ;;
  modify (set_req true).

(** The ['upgrade'] listener of the request. [accepted] says whether the
    [sec-websocket-accept] header equals the digest, and [extension]
    whether [sec-websocket-extensions] contains [-deflate]. *)
Definition on_upgrade (accepted extension : bool) : M unit :=
  modify (set_socket true) ;;
  ws <- this ;;
  let compress' := compress (options ws) && extension in
  if negb accepted then
    tell SocketDestroy ;;
    modify (set_closed true) ;;
    emit_if_subscribed "error" [JObj "Error: Invalid server key."] ;;
    free
  else
    modify (set_closed false) ;;
    tell SocketConfigure ;;
    (if compress' then
       modify (set_inflatepending []) ;;
       modify (set_inflatelock false) ;;
       tell CreateInflateRaw ;;
       modify (set_inflate true) ;;
       modify (set_deflatepending []) ;;
       modify (set_deflatelock false) ;;
       tell CreateDeflateRaw ;;
       modify (set_deflate true)
     else skip) ;;
    emit_if_subscribed "open" [].

(** [websocket_close], the listener of the socket's ['close'] and ['end']. *)
Definition websocket_close : M unit :=
  modify (set_closed true) ;;
  onclose ;;
  tell (Stat "performance.online" (-1)) ;;
  ws <- this ;;
  if negb (o_reconnect (options ws) =? 0) then
    tell (SetTimeout (o_reconnect (options ws))) ;;
    (fun st => (Ok tt, set_timers (timers st ++ [o_reconnect (options ws)]) st))
  else skip.

(** The function given to [setTimeout] by [websocket_close]. *)
Definition reconnect_timer : M unit :=
  modify (set_isClosed false) ;;
  modify (set__isClosed false) ;;
  modify (fun ws => set_reconnect (reconnect ws + 1) ws) ;;
  ws <- this ;;
  connect (url ws) (protocol ws) (origin ws).

End Client.

(** ** The event loop *)

(** What can happen to a client: the listeners the source registers are
    entered, a pending callback is run, or the application calls in. *)
Inductive event : Type :=
| SocketData (chunk : bytes)
| SocketError (err : jsval)
| SocketClosed
| ReconnectTimer
| Upgrade (accepted extension : bool)
| InflateData (chunk : bytes)
| InflateFlushed
| DeflateData (chunk : bytes)
| DeflateFlushed
| CallConnect (url' protocol' origin' : jsval)
| CallClose (message code : jsval)
| CallSend (message : jsval) (raw : bool) (replacer : jsval)
| CallPing.

Section Loop.

Context {C : Collaborators}.

Definition ignore {A} (c : M A) : M unit := c ;; skip.

Definition handle (ev : event) : M unit :=
  match ev with
  | SocketData chunk => ondata chunk
  | SocketError err => onerror err
  | SocketClosed => websocket_close
  | ReconnectTimer =>
      fun st =>
        match timers st with
        | [] => (Ok tt, st)
        | _ :: rest => reconnect_timer (set_timers rest st)
        end
  | Upgrade accepted extension => on_upgrade accepted extension
  | InflateData chunk => websocket_inflate chunk
  | InflateFlushed =>
      fun st =>
        match inflate_flushes st with
        | [] => (Ok tt, st)
        | buf :: rest => parseInflate_flushed buf (set_inflate_flushes rest st)
        end
  | DeflateData chunk => websocket_deflate chunk
  | DeflateFlushed =>
      fun st =>
        match deflate_flushes st with
        | [] => (Ok tt, st)
        | _ :: rest => sendDeflate_flushed (set_deflate_flushes rest st)
        end
  | CallConnect u p o => connect u p o
  | CallClose message code => close message code
  | CallSend message raw replacer => ignore (send message raw replacer)
  | CallPing => ping
  end.

(** The state after an event; an exception leaves the state as it was
    when it was thrown. *)
Definition step (st : St) (ev : event) : St := exec (handle ev) st.

Definition run (evs : list event) (st : St) : St := fold_left step evs st.

End Loop.

(** ** Observations on a trace *)

Definition is_emit (name : string) (e : effect) : bool :=
  match e with
  | Emit n _ _ => String.eqb n name
  | _ => false
  end.

(** The arguments of the [name] events delivered, in order. *)
Definition emitted (name : string) (tr : list effect) : list (list jsval) :=
  flat_map (fun e => match e with
                     | Emit n args _ => if String.eqb n name then [args] else []
                     | _ => []
                     end) tr.

(** The frames given to [socket.write] and [socket.end], in order. *)
Definition written (tr : list effect) : list frame :=
  flat_map (fun e => match e with
                     | SocketWrite f | SocketEnd f => [f]
                     | _ => []
                     end) tr.

Definition scheduled (tr : list effect) : list Z :=
  flat_map (fun e => match e with SetTimeout d => [d] | _ => [] end) tr.

(** What was written into the inflate context, in order. *)
Definition inflate_input (tr : list effect) : list bytes :=
  flat_map (fun e => match e with InflateWrite b => [b] | _ => [] end) tr.


(** ** A concrete set of collaborators

    Modelled from the spec: [U.getMessageLength] of utils.js is not part of
    this file. The spec gives the length as [length7] for 0..125, the next
    2 bytes (big-endian) for 126 and the next 8 bytes (big-endian) for 127,
    and a non-positive value while the extended length is not available. *)
Fixpoint be_value (acc : Z) (b : list Z) : Z :=
  match b with
  | [] => acc
  | x :: rest => be_value (acc * 256 + x) rest
  end.

Definition spec_getMessageLength (b : bytes) : Z :=
  let length7 := Z.land (Buffer.get b 1) 0x7f in
  if length7 =? 126 then
    if Buffer.len b <? 4 then -1 else be_value 0 (Buffer.slice b 2 4)
  else if length7 =? 127 then
    if Buffer.len b <? 10 then -1 else be_value 0 (Buffer.slice b 2 10)
  else length7.

Definition ascii_text (b : bytes) : string :=
  string_of_list_ascii (map (fun x => Ascii.ascii_of_N (Z.to_N x)) b).

Definition ascii_bytes (s : string) : bytes :=
  map (fun a => Z.of_N (Ascii.N_of_ascii a)) (list_ascii_of_string s).

(** The codecs of this instance are stand-ins for closed runs: text is
    ASCII, the URI and encryption codecs are the identity and nothing is
    JSON. The theorems below hold for every instance. *)
#[export] Instance plain_collaborators : Collaborators := {
  getMessageLength := spec_getMessageLength;
  toString_utf8 := ascii_text;
  Buffer_from := fun v => match v with
                          | JStr s => Some (ascii_bytes s)
                          | JBuf b => Some b
                          | _ => None
                          end;
  js_decodeURIComponent := fun s => Some s;
  js_encodeURIComponent := fun v => match v with JStr s => s | _ => EmptyString end;
  decrypt_data := fun s _ => s;
  encrypt_data := fun v _ => v;
  isJSON := fun _ => false;
  parseJSON := fun _ => JUndefined;
  JSON_stringify := fun _ _ => JUndefined;
  json2replacer := JUndefined;
  ToString := fun v => match v with JStr s => s | _ => EmptyString end
}.

(** ** Concrete clients *)

Definition with_options (o : options_t) (ws : WebSocketClient) : WebSocketClient :=
  set_options o ws.

(** One subscriber for each of the four events. *)
Definition subscribe_all : M unit :=
  on "open" (Handler 0 false) ;;
  on "message" (Handler 1 false) ;;
  on "error" (Handler 2 false) ;;
  on "close" (Handler 3 false).

(** A client with options [o], subscribed, connected and upgraded; the
    server accepts [permessage-deflate] iff [extension]. The trace starts
    empty. *)
Definition opened (o : options_t) (extension : bool) : St :=
  set_trace []
    (exec (subscribe_all ;; connect (JStr "ws://host/") JUndefined JUndefined ;;
           on_upgrade true extension)
          (start (with_options o create))).

Definition binary_options : options_t :=
  Options "binary" false true 3000 false JUndefined 0 false.

Definition text_options : options_t :=
  Options "text" false true 3000 false JUndefined 0 false.

(** Binary payloads with [options.length = limit]. *)
Definition limited_options (limit : Z) : options_t :=
  Options "binary" false true 3000 false JUndefined limit false.

(** The state in which [$ondata] calls [$parse] after it has received
    [chunk]: the chunk is appended to the accumulator. *)
Definition received (chunk : bytes) (st : St) : St :=
  exec (modify_current (fun c =>
          set_buffer (Some (match buffer c with
                            | Some b => Buffer.concat b chunk
                            | None => chunk
                            end)) c)) st.

(** ** Concrete inputs *)

(** The states of the concrete runs, evaluated once. [limited_client limit]
    has received [82 01 42] with [options.length = limit];
    [deflating_client] is open with binary payloads and compression
    negotiated, [busy_client] is this client after [send] of the buffer
    [01 02 03], and [inflating_client] is such a client that holds one
    fragment [F2 48] in the inflate queue and [held] as the body so far;
    [failed_client] has seen a socket error. *)
Definition limited_client : Z -> St :=
  Eval vm_compute in
    fun limit => received [0x82; 0x01; 0x42] (opened (limited_options limit) false).



Definition inflating_client : bool -> option bytes -> St :=
  Eval vm_compute in
    fun continue held =>
      exec (bind (modify_current (set_body held))
                 (fun _ => modify (set_inflatepending [IBuf [0xF2; 0x48] continue])))
           (opened binary_options true).

Definition failed_client : St :=
  Eval vm_compute in step (opened text_options false) (SocketError (JStr "reset")).

(** A final binary frame with the MASK bit set, key [0F 0F 0F 0F] and the
    one payload byte [41] sent masked as [4E]. *)
Definition masked_frame : bytes := [0x82; 0x81; 0x0F; 0x0F; 0x0F; 0x0F; 0x4E].

(** A ping with the payload [41], then a final binary frame with the
    payload [42]. *)
Definition ping_frame : bytes := [0x89; 0x01; 0x41].
Definition data_frame : bytes := [0x82; 0x01; 0x42].

(** The empty ping. *)
Definition empty_ping : bytes := [0x89; 0x00].

(** [frame_index b] is [index] and [frame_size b] is [mlength] in [$parse]. *)
Definition frame_masked (b : bytes) : bool :=
  Z.shiftr (Z.land (Buffer.get b 1) 0xfe) 7 =? 0x01.

Definition frame_index (b : bytes) : Z :=
  let l7 := Z.land (Buffer.get b 1) 0x7f in
  (if l7 =? 126 then 4 else if l7 =? 127 then 10 else 2)
  + (if frame_masked b then 4 else 0).

Definition frame_size {C : Collaborators} (b : bytes) : Z :=
  frame_index b + getMessageLength b.

Definition frame_opcode (b : bytes) : Z := Z.land (Buffer.get b 0) 0x0f.

(** The payload of the frame at the head of [b], as it is on the wire. *)
Definition frame_payload {C : Collaborators} (b : bytes) : bytes :=
  Buffer.copy b (Buffer.alloc (getMessageLength b)) 0 (frame_index b) (frame_size b).

Definition frame_final (b : bytes) : bool :=
  Z.shiftr (Z.land (Buffer.get b 0) 0x80) 7 =? 0x01.

(** The reason of a close frame as [close] hands it to the frame builder:
    URI-encoded when [options.encodedecode] is set. *)
Definition reason_on_wire {C : Collaborators}
    (ws : WebSocketClient) (reason : string) : jsval :=
  if encodedecode (options ws)
  then JStr (js_encodeURIComponent (JStr reason))
  else JStr reason.

(** The close frame written by [close('Frame is too large', 1009)], when a
    frame or an inflated message is larger than [options.length]. *)
Definition too_large_frame {C : Collaborators} (ws : WebSocketClient) : frame :=
  getWebSocketFrame (JNum 1009) (reason_on_wire ws "Frame is too large") 0x08 false
    (masking (options ws)).

(** [b] ends with [tail]. *)
Definition ends_with (tail b : bytes) : Prop := exists front, b = front ++ tail.







(** [sendDeflate] has just handed a payload to the stream: no chunk of the
    answer has arrived. *)
Definition fresh (st : St) : Prop :=
  deflatechunks (self st) = Some [] /\ deflatechunkslength (self st) = 0.

(** The sum of the lengths of the chunks, as [websocket_inflate] and
    [websocket_deflate] accumulate it. *)
Definition chunks_total (chunks : list bytes) : Z :=
  fold_right (fun c n => Buffer.len c + n) 0 chunks.

(** The [message] events that [$decode] delivers for the body [b]. *)
Definition decoded {C : Collaborators}
    (ws : WebSocketClient) (b : bytes) : list (list jsval) :=
  if typebuffer ws then [[JBuf b]]
  else if String.eqb (o_type (options ws)) "binary"
          || String.eqb (o_type (options ws)) "buffer"
  then [[JBuf b]]
  else if String.eqb (o_type (options ws)) "json" then
    if isJSON (decode_text ws b) then
      match parseJSON (decode_text ws b) with
      | JUndefined => []
      | tmp => [[tmp]]
      end
    else []
  else [[JStr (decode_text ws b)]].

(** [options.length && n > options.length]. *)
Definition over_limit (ws : WebSocketClient) (n : Z) : bool :=
  negb (o_length (options ws) =? 0) && (o_length (options ws) <? n).

(** The number of [close] events delivered. *)
Definition closes (tr : list effect) : nat := List.length (emitted "close" tr).


(** ** Invariants of the handlers

    [stable I c]: the computation [c] keeps the state inside [I], whatever
    its outcome. The lemmas of this section hold for every [I] that is kept
    by the updates of the client that leave [_isClosed], [type], the
    accumulator and [current.length] alone and do not raise
    [options.reconnect] from zero, by every effect other than a [close]
    event and a timer, and by the registration of callbacks. *)

Create HintDb stab.

Definition stable (I : St -> Prop) {A} (c : M A) : Prop :=
  forall st, I st -> I (snd (c st)).

Definition gentle (f : WebSocketClient -> WebSocketClient) : Prop :=
  forall ws,
    _isClosed (f ws) = _isClosed ws
    /\ self_type (f ws) = self_type ws
    /\ buffer (current (f ws)) = buffer (current ws)
    /\ clength (current (f ws)) = clength (current ws)
    /\ (o_reconnect (options ws) = 0 -> o_reconnect (options (f ws)) = 0).

Definition quiet (e : effect) : bool :=
  match e with
  | Emit name _ _ => negb (String.eqb name "close")
  | SetTimeout _ => false
  | _ => true
  end.

(** The invariants used below. [close_once c0]: since the trace held [c0]
    [close] events, at most one more was delivered, and none while the
    guard [_isClosed] is clear. *)
Definition close_once (c0 : nat) (st : St) : Prop :=
  if _isClosed (self st)
  then (closes (trace st) <= c0 + 1)%nat
  else closes (trace st) = c0.

(** The guard is set and the trace holds [c0] [close] events. *)
Definition guarded (c0 : nat) (st : St) : Prop :=
  _isClosed (self st) = true /\ closes (trace st) = c0.

(** Reconnection is off and the timers started are [ts]. *)
Definition reconnect_off (ts : list Z) (st : St) : Prop :=
  o_reconnect (options (self st)) = 0 /\ scheduled (trace st) = ts.

(** The client has no [type] property. *)
Definition untyped (st : St) : Prop := self_type (self st) = JUndefined.


(** The accumulator was dropped, or it is [b] with [current.length = n]. *)
Definition holds_frame (b : bytes) (n : Z) (st : St) : Prop :=
  buffer (current (self st)) = None
  \/ (buffer (current (self st)) = Some b /\ clength (current (self st)) = n).

(** The bytes in the accumulator once [chunk] is appended. *)
Definition buffered (chunk : option bytes) (st : St) : nat :=
  match buffer (current (self st)), chunk with
  | Some b, Some d => List.length b + List.length d
  | Some b, None => List.length b
  | None, Some d => List.length d
  | None, None => O
  end.

(** ** Further methods and listeners of the client *)

(** [removeListener(name, fn)]. Modelled from the spec: [evt.remove(f)] is
    an array helper of utils.js; the spec has the fire-once handlers leave
    the subscribers after a delivery and [removeListener] take a handler
    out of them, so [remove(f)] keeps the items for which [f] does not
    hold, as in [emit]. [n === fn] is the identity of the function, held
    as [hid]. *)
Definition removeListener (name : string) (fn : handler) : M unit :=
  ws <- this ;;
  match events ws name with
  | [] => skip
  | evt =>
      modify (set_events (fun n =>
        if String.eqb n name
        then filter (fun h => negb (Nat.eqb (hid h) (hid fn))) evt
        else events ws n))
  end.

(** The ['error'] listener of the request. *)
Definition req_onerror (e : jsval) : M unit :=
  emit_if_subscribed "error" [e].

Section ClientMore.

Context {C : Collaborators}.


(** The identifier [self] inside [sendcustom]: as in [ping], neither the
    function nor the module declares it, so that reading it throws. *)
Definition sendcustom_self : M WebSocketClient :=
  throw (ReferenceError "self").

(** [sendcustom(type, message)]. In the call
    [this.socket.write(U.getWebSocketFrame(..., self.options.masking))]
    the method [this.socket.write] is looked up before the arguments are
    evaluated. *)
Definition sendcustom (type message : jsval) : M bool :=
  ws <- this ;;
  if isClosed ws || closed ws then ret false
  else
    (if istext ws then
       let data :=
         JStr (ToString (match message with
                         | JUndefined | JNull => JStr EmptyString
                         | m => m
                         end)) in
       s <- sendcustom_self ;;
       let data :=
         if truthy (encrypt (options s)) then encrypt_data data (encrypt (options s))
         else data in
       let data :=
         if encodedecode (options ws) && truthy data
         then JStr (js_encodeURIComponent data)
         else data in
       if deflate ws then
         payload <- buffer_from data ;;
         modify (fun w => set_deflatepending (deflatepending w ++ [payload]) w) ;;
         sendDeflate
       else if socket ws then
         s <- sendcustom_self ;;
         socket_write (getWebSocketFrame (JNum 0) data 0x01 false
                         (masking (options s)))
       else throw (TypeError "socket")
     else
       payload <- (match message with
                   | JBuf b => ret b
                   | _ => buffer_from message
                   end) ;;
       if deflate ws then
         modify (fun w => set_deflatepending (deflatepending w ++ [payload]) w) ;;
         sendDeflate
       else if socket ws then
         s <- sendcustom_self ;;
         socket_write (getWebSocketFrame (JNum 0) (JBuf payload) 0x02 false
                         (masking (options s)))
       else throw (TypeError "socket")) ;;
    ret true.

End ClientMore.

(** ** Events of a closed client *)

(** The events that bring data in from the socket or out from the
    application. *)
Definition inert_event (ev : event) : bool :=
  match ev with
  | SocketData _ | CallSend _ _ _ => true
  | _ => false
  end.

(** The events that set [isClosed] whatever the state: [close] and the
    ['error'] listener of the socket. *)
Definition closing (ev : event) : bool :=
  match ev with
  | CallClose _ _ | SocketError _ => true
  | _ => false
  end.

(** The subscribers that stay after a delivery. *)
Definition persistent (evt : list handler) : list handler :=
  filter (fun h => negb (h_once h)) evt.

(** The [Emit] effect of a delivery of [name] to [evt], if there is a
    subscriber. *)
Definition delivery (name : string) (args : list jsval) (evt : list handler)
    : list effect :=
  match evt with
  | [] => []
  | _ => [Emit name args evt]
  end.

(** The events in which the client reads frames: data from the socket,
    and the flush callback of the inflate stream. *)
Definition reads_frames (ev : event) : bool :=
  match ev with
  | SocketData _ | InflateFlushed => true
  | _ => false
  end.

(** ** Frames in the accumulator *)

(** The masking key of the frame at the head of [b], as [$parse] copies it
    into [current.mask]. *)
Definition frame_key (b : bytes) : bytes :=
  Buffer.copy b (Buffer.alloc 4) 0 (frame_index b - 4) (frame_index b).

(** [$parse] accepts the head of [b] as a frame: more than two bytes are
    there, the payload is not empty, the frame is within [options.length]
    and all its bytes have arrived. *)
Definition accepted {C : Collaborators} (ws : WebSocketClient) (b : bytes) : Prop :=
  2 < Buffer.len b
  /\ 0 < getMessageLength b
  /\ over_limit ws (frame_size b) = false
  /\ frame_size b <= Buffer.len b.







(** [$parse] finds no whole frame at the head of [b] and returns without
    closing the connection: at most two bytes are there, or no length can
    be read yet, or the frame is within [options.length] and bytes of it
    are still to come. *)
Definition waiting {C : Collaborators} (ws : WebSocketClient) (b : bytes) : Prop :=
  Buffer.len b <= 2
  \/ getMessageLength b <= 0
  \/ (over_limit ws (frame_size b) = false /\ Buffer.len b < frame_size b).

(** The state with the header fields of [this.current] as [$parse] reads
    them from [b]. *)
Definition with_header (b : bytes) (st : St) : St :=
  exec (modify_current
          (fun c => set_isMask (frame_masked b)
                      (set_final (frame_final b)
                         (set_type (Some (frame_opcode b)) c)))) st.

(** The payload of the frame at the head of [b] with its mask taken off. *)
Definition unmasked {C : Collaborators} (b : bytes) : bytes :=
  if frame_masked b
  then Buffer.xor_mask (frame_key b) (frame_payload b)
  else frame_payload b.

(** Byte [i] of the payload of the frame at the head of [b], read from
    [b]: the byte after the header, and for a masked frame that byte
    [xor] the byte [i mod 4] of the four bytes before the payload. *)
Definition unmasked_byte (b : bytes) (i : Z) : Z :=
  if frame_masked b
  then Z.lxor (Buffer.get b (frame_index b + i))
              (Buffer.get b (frame_index b - 4 + i mod 4))
  else Buffer.get b (frame_index b + i).

(** ** Concrete clients *)

(** The clients of the concrete runs below, evaluated once: an open
    client of the text family, an open client in the buffer mode, open
    binary clients without and with compression, and a binary client
    that has called [connect] and waits for the upgrade. *)
Definition open_text_client : St :=
  Eval vm_compute in opened text_options false.


Definition open_binary_client : bool -> St :=
  Eval vm_compute in fun extension => opened binary_options extension.





(** * Theorems *)

(** Unfolding of the monad, of the record updates and of the projections of
    the state; the states it is used on are opened into their fields. *)
Ltac msimpl_once :=
  cbv beta iota zeta delta
    [
       fst snd bind ret throw this modify modify_current tell skip when exec
       ignore getWebSocketFrame rsv1 set_buffer set_type set_type2 set_final
       set_isMask set_mask set_data set_clength set_body set_o_reconnect
       set_current set_events set_reconnect set_closed set_options set_url
       set_protocol set_origin set_typebuffer set_istext set_req set_socket
       set_inflate set_inflatepending set_inflatelock set_inflatechunks
       set_inflatechunkslength set_deflate set_deflatepending
       set_deflatelock set_deflatechunks set_deflatechunkslength
       set_isClosed set__isClosed set_closemessage set_closecode
       set_ping_flag set_self set_trace set_inflate_flushes
       set_deflate_flushes set_timers buffer type type2 final isMask mask
       data clength body o_type masking compress o_reconnect encodedecode
       encrypt o_length reconnectserver current events reconnect closed
       options url protocol origin typebuffer istext req socket inflate
       inflatepending inflatelock inflatechunks inflatechunkslength deflate
       deflatepending deflatelock deflatechunks deflatechunkslength isClosed
       _isClosed closemessage closecode ping_flag self_type self trace
       inflate_flushes deflate_flushes timers ];
  cbn
    [ negb andb orb truthy is_true_sentinel js_or String.eqb Ascii.eqb Bool.eqb
       f_code f_message f_type f_compress f_mask hid h_once ib_bytes
       ib_continue ].

Ltac msimpl_once_in H :=
  cbv beta iota zeta delta
    [
       fst snd bind ret throw this modify modify_current tell skip when exec
       ignore getWebSocketFrame rsv1 set_buffer set_type set_type2 set_final
       set_isMask set_mask set_data set_clength set_body set_o_reconnect
       set_current set_events set_reconnect set_closed set_options set_url
       set_protocol set_origin set_typebuffer set_istext set_req set_socket
       set_inflate set_inflatepending set_inflatelock set_inflatechunks
       set_inflatechunkslength set_deflate set_deflatepending
       set_deflatelock set_deflatechunks set_deflatechunkslength
       set_isClosed set__isClosed set_closemessage set_closecode
       set_ping_flag set_self set_trace set_inflate_flushes
       set_deflate_flushes set_timers buffer type type2 final isMask mask
       data clength body o_type masking compress o_reconnect encodedecode
       encrypt o_length reconnectserver current events reconnect closed
       options url protocol origin typebuffer istext req socket inflate
       inflatepending inflatelock inflatechunks inflatechunkslength deflate
       deflatepending deflatelock deflatechunks deflatechunkslength isClosed
       _isClosed closemessage closecode ping_flag self_type self trace
       inflate_flushes deflate_flushes timers ] in H;
  cbn
    [ negb andb orb truthy is_true_sentinel js_or String.eqb Ascii.eqb Bool.eqb
       f_code f_message f_type f_compress f_mask hid h_once ib_bytes
       ib_continue ] in H.

Ltac msimpl := repeat (progress msimpl_once).

Ltac msimpl_in H := repeat (progress (msimpl_once_in H)).


(** [by_instance H]: an equation between closed terms follows from the
    instance [H] of a theorem, whose two sides evaluate to its sides. *)
Ltac by_instance H :=
  match type of H with
  | ?l = ?r =>
      transitivity l;
      [ vm_compute; reflexivity
      | transitivity r; [ exact H | vm_compute; reflexivity ] ]
  end.

(** [open_state st]: the state [st] as the record of its fields. *)
Ltac open_state st :=
  let ws := fresh "ws" in
  let cur := fresh "cur" in
  let opts := fresh "opts" in
  destruct st as [ws ? ? ? ?];
  destruct ws as [cur ? ? ? opts ? ? ? ? ? ? ? ? ? ? ? ? ? ? ? ? ? ? ? ? ? ? ?];
  destruct cur; destruct opts;
  cbn
    [
       buffer type type2 final isMask mask data clength body o_type masking
       compress o_reconnect encodedecode encrypt o_length reconnectserver
       current events reconnect closed options url protocol origin
       typebuffer istext req socket inflate inflatepending inflatelock
       inflatechunks inflatechunkslength deflate deflatepending deflatelock
       deflatechunks deflatechunkslength isClosed _isClosed closemessage
       closecode ping_flag self_type self trace inflate_flushes
       deflate_flushes timers ] in *.

(** ** Invariants of the handlers *)

Lemma stable_ret (I : St -> Prop) A (a : A) : stable I (ret a).
Proof. intros st H. exact H. Qed.

Lemma stable_throw (I : St -> Prop) A (e : exn) : stable I (throw (A:=A) e).
Proof. intros st H. exact H. Qed.

Lemma stable_this (I : St -> Prop) : stable I this.
Proof. intros st H. exact H. Qed.

Lemma stable_bind (I : St -> Prop) A B (c : M A) (k : A -> M B) :
  stable I c -> (forall a, stable I (k a)) -> stable I (bind c k).
Proof.
  intros Hc Hk st H. unfold bind.
  specialize (Hc st H).
  destruct (c st) as [[a | e] st']; cbn in *.
  - apply Hk. exact Hc.
  - exact Hc.
Qed.

Ltac gentle_tac :=
  let ws := fresh "ws" in
  let cur := fresh "cur" in
  let opts := fresh "opts" in
  intros ws;
  destruct ws as [cur ? ? ? opts ? ? ? ? ? ? ? ? ? ? ? ? ? ? ? ? ? ? ? ? ? ? ?];
  destruct cur; destruct opts; cbn; repeat split; auto.

Ltac stable_step Hm Ht :=
  match goal with
  | |- stable _ (bind _ _) => apply stable_bind; [ | intros ]
  | |- stable _ (ret _) => apply stable_ret
  | |- stable _ skip => apply stable_ret
  | |- stable _ (throw _) => apply stable_throw
  | |- stable _ this => apply stable_this
  | |- stable _ (when ?b _) => destruct b; unfold when
  | |- stable _ (modify_current _) => unfold modify_current
  | |- stable _ (modify _) => apply Hm; solve [ gentle_tac ]
  | |- stable _ (tell _) => apply Ht; reflexivity
  | |- stable _ (if ?b then _ else _) => destruct b
  | |- stable _ (match ?x with _ => _ end) => destruct x
  | |- stable _ _ => solve [ auto with stab ]
  end.

Section Stable.

Context {C : Collaborators}.
Variable I : St -> Prop.

Hypothesis I_modify : forall f, gentle f -> stable I (modify f).
Hypothesis I_tell : forall e, quiet e = true -> stable I (tell e).
Hypothesis I_queues :
  forall st a b c, I st -> I (MkSt (self st) (trace st) a b c).

Ltac stable_tac := repeat stable_step I_modify I_tell.

Lemma stable_socket_write f : stable I (socket_write f).
Proof. unfold socket_write. stable_tac. Qed.

Lemma stable_socket_end f : stable I (socket_end f).
Proof. unfold socket_end. stable_tac. Qed.

Hint Resolve stable_socket_write stable_socket_end : stab.

Lemma stable_free : stable I free.
Proof. unfold free. stable_tac. Qed.

Lemma stable_close message code : stable I (close message code).
Proof. unfold close. stable_tac. Qed.

Hint Resolve stable_free stable_close : stab.

Lemma stable_emit name args :
  String.eqb name "close" = false -> stable I (emit name args).
Proof.
  intros Hn. unfold emit. apply stable_bind; [ apply stable_this | intros ws ].
  destruct (events ws name); [ apply stable_ret | ].
  apply stable_bind; [ apply I_tell; cbn; rewrite Hn; reflexivity | intros ].
  stable_tac.
Qed.

Lemma stable_emit_if_subscribed name args :
  String.eqb name "close" = false -> stable I (emit_if_subscribed name args).
Proof.
  intros Hn. unfold emit_if_subscribed.
  apply stable_bind; [ apply stable_this | intros ws ].
  destruct (events ws name); [ apply stable_ret | apply stable_emit; exact Hn ].
Qed.

Lemma stable_emit_message args : stable I (emit "message" args).
Proof. apply stable_emit. reflexivity. Qed.

Hint Resolve stable_emit_message : stab.


Lemma stable_readbody : stable I readbody.
Proof. unfold readbody. stable_tac. Qed.

Lemma stable_decode : stable I decode.
Proof. unfold decode. stable_tac. Qed.

Hint Resolve stable_decode : stab.

Lemma stable_inflate_write b : stable I (inflate_write b).
Proof. unfold inflate_write. stable_tac. Qed.

Lemma stable_inflate_flush buf : stable I (inflate_flush buf).
Proof.
  unfold inflate_flush. stable_tac.
  intros st H. cbn. destruct st. exact (I_queues _ _ _ H).
Qed.

Hint Resolve stable_inflate_write stable_inflate_flush : stab.

Lemma stable_parseInflate : stable I parseInflate.
Proof. unfold parseInflate. stable_tac. Qed.

Hint Resolve stable_parseInflate : stab.

Lemma stable_parseInflate_flushed buf : stable I (parseInflate_flushed buf).
Proof. unfold parseInflate_flushed. stable_tac. Qed.

Lemma stable_websocket_inflate chunk : stable I (websocket_inflate chunk).
Proof. unfold websocket_inflate. stable_tac. Qed.

Lemma stable_ondata_message : stable I ondata_message.
Proof. unfold ondata_message. stable_tac. Qed.

Lemma stable_ondata_close : stable I ondata_close.
Proof. unfold ondata_close. stable_tac. Qed.

Hint Resolve stable_ondata_message stable_ondata_close : stab.

(** [$parse] and [$ondata] also set the accumulator and [current.length]. *)
Hypothesis I_current : forall f, stable I (modify_current f).

Lemma stable_parse : stable I parse.
Proof. unfold parse. repeat first [ apply I_current | stable_step I_modify I_tell ]. Qed.

Hint Resolve stable_parse : stab.

Lemma stable_ondata_dispatch : stable I ondata_dispatch.
Proof.
  unfold ondata_dispatch.
  repeat first [ apply I_current | stable_step I_modify I_tell ].
Qed.

Hint Resolve stable_ondata_dispatch : stab.

Lemma stable_ondata_rec depth chunk : stable I (ondata_rec depth chunk).
Proof.
  revert chunk. induction depth as [ | depth IH ]; intros chunk; cbn [ondata_rec].
  - apply stable_throw.
  - repeat first [ apply I_current | apply IH | stable_step I_modify I_tell ].
Qed.

Lemma stable_ondata chunk : stable I (ondata chunk).
Proof. intros st H. unfold ondata. apply stable_ondata_rec. exact H. Qed.

Lemma stable_deflate_write b : stable I (deflate_write b).
Proof. unfold deflate_write. stable_tac. Qed.

Lemma stable_deflate_flush : stable I deflate_flush.
Proof.
  unfold deflate_flush. stable_tac.
  intros st H. cbn. destruct st. exact (I_queues _ _ _ H).
Qed.

Hint Resolve stable_deflate_write stable_deflate_flush : stab.

Lemma stable_sendDeflate : stable I sendDeflate.
Proof. unfold sendDeflate. stable_tac. Qed.

Hint Resolve stable_sendDeflate : stab.

Lemma stable_sendDeflate_flushed : stable I sendDeflate_flushed.
Proof. unfold sendDeflate_flushed. stable_tac. Qed.

Lemma stable_websocket_deflate chunk : stable I (websocket_deflate chunk).
Proof. unfold websocket_deflate. stable_tac. Qed.

Lemma stable_buffer_from v : stable I (buffer_from v).
Proof. unfold buffer_from. stable_tac. Qed.

Hint Resolve stable_buffer_from : stab.

Lemma stable_send message raw replacer : stable I (send message raw replacer).
Proof. unfold send. stable_tac. Qed.

Lemma stable_ping : stable I ping.
Proof. unfold ping, ping_self_options_masking. stable_tac. Qed.

Lemma stable_connect u p o : stable I (connect u p o).
Proof. unfold connect. stable_tac. Qed.

Lemma stable_on_upgrade accepted extension : stable I (on_upgrade accepted extension).
Proof.
  unfold on_upgrade. stable_tac;
    try (apply stable_emit_if_subscribed; reflexivity).
Qed.

(** The handlers that set [_isClosed], deliver [close] or start a timer
    are left to each invariant. *)
Hypothesis I_onclose : stable I onclose.
Hypothesis I_websocket_close : stable I websocket_close.

Lemma stable_onerror err : stable I (onerror err).
Proof.
  unfold onerror.
  apply stable_bind; [ apply stable_emit_if_subscribed; reflexivity | intros ].
  stable_tac.
Qed.

(** Every event but the reconnect timer. *)
Lemma stable_handle ev :
  ev <> ReconnectTimer -> stable I (handle ev).
Proof.
  intros Hev. destruct ev; cbn [handle]; try congruence.
  - apply stable_ondata.
  - apply stable_onerror.
  - exact I_websocket_close.
  - apply stable_on_upgrade.
  - apply stable_websocket_inflate.
  - intros st H. destruct (inflate_flushes st) as [ | buf rest ]; [ exact H | ].
    apply stable_parseInflate_flushed. destruct st. exact (I_queues _ _ _ H).
  - apply stable_websocket_deflate.
  - intros st H. destruct (deflate_flushes st) as [ | buf rest ]; [ exact H | ].
    apply stable_sendDeflate_flushed. destruct st. exact (I_queues _ _ _ H).
  - apply stable_connect.
  - apply stable_close.
  - unfold ignore. apply stable_bind; [ apply stable_send | intros; apply stable_ret ].
  - apply stable_ping.
Qed.

End Stable.

Lemma event_eq_timer ev : ev = ReconnectTimer \/ ev <> ReconnectTimer.
Proof. destruct ev; auto; right; discriminate. Qed.

Lemma run_app {C : Collaborators} evs1 evs2 st :
  run (evs1 ++ evs2) st = run evs2 (run evs1 st).
Proof. unfold run. apply fold_left_app. Qed.

(** ** Traces *)

Lemma emitted_app name tr1 tr2 :
  emitted name (tr1 ++ tr2) = emitted name tr1 ++ emitted name tr2.
Proof. unfold emitted. apply flat_map_app. Qed.

Lemma scheduled_app tr1 tr2 :
  scheduled (tr1 ++ tr2) = scheduled tr1 ++ scheduled tr2.
Proof. unfold scheduled. apply flat_map_app. Qed.

Lemma written_app tr1 tr2 :
  written (tr1 ++ tr2) = written tr1 ++ written tr2.
Proof. unfold written. apply flat_map_app. Qed.

Lemma inflate_input_app tr1 tr2 :
  inflate_input (tr1 ++ tr2) = inflate_input tr1 ++ inflate_input tr2.
Proof. unfold inflate_input. apply flat_map_app. Qed.

Lemma closes_quiet tr e : quiet e = true -> closes (tr ++ [e]) = closes tr.
Proof.
  intros Hq. unfold closes. rewrite emitted_app, length_app.
  destruct e; cbn in *; try lia.
  destruct (String.eqb name "close"); cbn in *; [ discriminate | lia ].
Qed.

Lemma scheduled_quiet tr e : quiet e = true -> scheduled (tr ++ [e]) = scheduled tr.
Proof.
  intros Hq. rewrite scheduled_app.
  destruct e; cbn in *; try discriminate; apply app_nil_r.
Qed.

(** ** What [$onclose] does *)

(** With the guard set, [$onclose] does nothing. *)
Lemma onclose_guarded {C : Collaborators} st :
  _isClosed (self st) = true -> onclose st = (Ok tt, st).
Proof. intros H. open_state st. subst. reflexivity. Qed.

(** With the guard clear, [$onclose] sets it and delivers [close] to the
    subscribers, if there are any; it starts no timer and leaves the
    options and [type] alone. *)
Lemma onclose_first {C : Collaborators} st :
  _isClosed (self st) = false ->
  let st' := exec onclose st in
  _isClosed (self st') = true
  /\ isClosed (self st') = true
  /\ emitted "close" (trace st')
     = emitted "close" (trace st)
       ++ match events (self st) "close" with
          | [] => []
          | _ => [[closecode (self st); closemessage (self st)]]
          end
  /\ scheduled (trace st') = scheduled (trace st)
  /\ options (self st') = options (self st)
  /\ self_type (self st') = self_type (self st).
Proof.
  intros H. open_state st. subst. unfold onclose, emit_if_subscribed, emit.
  destruct inflate0, deflate0, (events0 "close") as [ | h hs ] eqn:E, socket0;
    repeat (progress (msimpl; rewrite ?E));
    try (destruct (existsb h_once (h :: hs)); msimpl);
    repeat rewrite ?emitted_app, ?scheduled_app; cbn;
    rewrite ?app_nil_r; repeat split; reflexivity.
Qed.

(** ** C10: the close event *)

Section CloseOnce.

Context {C : Collaborators}.
Variable c0 : nat.

Lemma close_once_modify f : gentle f -> stable (close_once c0) (modify f).
Proof.
  intros Hg st H. unfold close_once in *. cbn.
  destruct (Hg (self st)) as [E _]. rewrite E.
  destruct st; exact H.
Qed.

Lemma close_once_tell e : quiet e = true -> stable (close_once c0) (tell e).
Proof.
  intros Hq st H. unfold close_once in *. destruct st as [ws tr a b c].
  msimpl. msimpl_in H. rewrite (closes_quiet _ _ Hq). exact H.
Qed.

Lemma close_once_current f : stable (close_once c0) (modify_current f).
Proof. intros st H. destruct st as [[] ? ? ? ?]. exact H. Qed.

Lemma close_once_queues st a b c :
  close_once c0 st -> close_once c0 (MkSt (self st) (trace st) a b c).
Proof. intros H. exact H. Qed.

Lemma close_once_onclose : stable (close_once c0) onclose.
Proof.
  intros st H. destruct (_isClosed (self st)) eqn:G.
  - rewrite (onclose_guarded _ G). exact H.
  - destruct (onclose_first _ G) as (G' & _ & E & _).
    unfold close_once in *. rewrite G in H. unfold exec in *. rewrite G'.
    unfold closes. rewrite E, length_app. fold (closes (trace st)). rewrite H.
    destruct (events (self st) "close"); cbn; lia.
Qed.

Lemma close_once_timeout d : stable (close_once c0) (tell (SetTimeout d)).
Proof.
  intros st H. unfold close_once in *. destruct st as [ws tr a b c].
  msimpl. msimpl_in H.
  unfold closes in *. rewrite emitted_app. cbn. rewrite app_nil_r. exact H.
Qed.

Lemma close_once_websocket_close : stable (close_once c0) websocket_close.
Proof.
  unfold websocket_close.
  repeat first
    [ apply close_once_onclose
    | apply close_once_timeout
    | stable_step close_once_modify close_once_tell ].
Qed.

Lemma close_once_step ev :
  ev <> ReconnectTimer -> stable (close_once c0) (handle ev).
Proof.
  intros Hev. apply stable_handle;
    auto using close_once_modify, close_once_tell, close_once_queues, close_once_current,
      close_once_onclose, close_once_websocket_close.
Qed.

Lemma close_once_run evs : forall st,
  Forall (fun ev => ev <> ReconnectTimer) evs ->
  close_once c0 st -> close_once c0 (run evs st).
Proof.
  induction evs as [ | ev evs IH ]; intros st Hevs H; cbn.
  - exact H.
  - inversion Hevs; subst. apply IH; [ assumption | ].
    apply (close_once_step H2 _ H).
Qed.

Lemma guarded_modify f : gentle f -> stable (guarded c0) (modify f).
Proof.
  intros Hg st [G E]. unfold guarded. cbn.
  destruct (Hg (self st)) as [E' _]. rewrite E'.
  destruct st; split; assumption.
Qed.

Lemma guarded_tell e : quiet e = true -> stable (guarded c0) (tell e).
Proof.
  intros Hq st [G E]. unfold guarded. destruct st as [ws tr a b c].
  msimpl. msimpl_in G. msimpl_in E. rewrite (closes_quiet _ _ Hq). split; assumption.
Qed.

Lemma guarded_current f : stable (guarded c0) (modify_current f).
Proof. intros st H. destruct st as [[] ? ? ? ?]. exact H. Qed.

Lemma guarded_queues st a b c :
  guarded c0 st -> guarded c0 (MkSt (self st) (trace st) a b c).
Proof. intros H. exact H. Qed.

Lemma guarded_onclose : stable (guarded c0) onclose.
Proof. intros st [G E]. rewrite (onclose_guarded _ G). split; assumption. Qed.

Lemma guarded_timeout d : stable (guarded c0) (tell (SetTimeout d)).
Proof.
  intros st [G E]. unfold guarded. destruct st as [ws tr a b c].
  msimpl. msimpl_in G. msimpl_in E.
  unfold closes in *. rewrite emitted_app. cbn. rewrite app_nil_r.
  split; assumption.
Qed.

Lemma guarded_websocket_close : stable (guarded c0) websocket_close.
Proof.
  unfold websocket_close.
  repeat first
    [ apply guarded_onclose
    | apply guarded_timeout
    | stable_step guarded_modify guarded_tell ].
Qed.

Lemma guarded_run evs : forall st,
  Forall (fun ev => ev <> ReconnectTimer) evs ->
  guarded c0 st -> guarded c0 (run evs st).
Proof.
  induction evs as [ | ev evs IH ]; intros st Hevs H; cbn.
  - exact H.
  - inversion Hevs; subst. apply IH; [ assumption | ].
    assert (S : stable (guarded c0) (handle ev)).
    { apply stable_handle;
        auto using guarded_modify, guarded_tell, guarded_queues, guarded_current,
          guarded_onclose, guarded_websocket_close. }
    apply (S _ H).
Qed.

End CloseOnce.

Lemma reconnect_timer_resets_guard {C : Collaborators} st d rest :
  timers st = d :: rest ->
  _isClosed (self (step st ReconnectTimer)) = false
  /\ isClosed (self (step st ReconnectTimer)) = false
  /\ reconnect (self (step st ReconnectTimer)) = reconnect (self st) + 1.
Proof.
  intros H. unfold step, exec. cbn [handle]. rewrite H.
  open_state st. repeat split; reflexivity.
Qed.

(** C10. Between two firings of the reconnect timer, whatever the socket,
    the zlib streams and the application do, at most one [close] event is
    delivered: the first entry to [$onclose] sets the guard [_isClosed];
    with the guard set [$onclose] returns at once and nothing more is
    delivered; the timer of [websocket_close] clears the guard. *)
Theorem close_delivered_at_most_once {C : Collaborators} (st : St) (evs : list event) :
  Forall (fun ev => ev <> ReconnectTimer) evs ->
  (closes (trace (run evs st)) <= closes (trace st) + 1)%nat
  /\ (_isClosed (self st) = true ->
      onclose st = (Ok tt, st)
      /\ closes (trace (run evs st)) = closes (trace st)
      /\ _isClosed (self (run evs st)) = true)
  /\ _isClosed (self (exec onclose st)) = true
  /\ (timers (run evs st) <> [] ->
      _isClosed (self (step (run evs st) ReconnectTimer)) = false).
Proof.
  intros Hevs. split; [ | split; [ | split ] ].
  - assert (H : close_once (closes (trace st)) st).
    { unfold close_once. destruct (_isClosed (self st)); lia. }
    eapply close_once_run in H; [ | exact Hevs ]. unfold close_once in H.
    destruct (_isClosed (self (run evs st))); lia.
  - intros G. split; [ apply onclose_guarded; exact G | ].
    assert (H : guarded (closes (trace st)) st) by (split; [ exact G | reflexivity ]).
    eapply guarded_run in H; [ | exact Hevs ]. destruct H as [G' E]. split; assumption.
  - destruct (_isClosed (self st)) eqn:G.
    + unfold exec. rewrite (onclose_guarded _ G). exact G.
    + apply (onclose_first _ G).
  - intros Ht. destruct (timers (run evs st)) as [ | d rest ] eqn:E; [ congruence | ].
    apply (reconnect_timer_resets_guard _ E).
Qed.

(** A run for C10: after a socket error on an open client with a [close]
    subscriber, the socket's [end] and [close] and a second error follow.
    One [close] event was delivered by the first error and none is added;
    the pending timer clears the guard. *)
Lemma close_delivered_at_most_once_witness :
  let evs := [SocketClosed; SocketClosed; SocketError (JStr "again")] in
  failed_client = step (opened text_options false) (SocketError (JStr "reset"))
  /\ Forall (fun ev => ev <> ReconnectTimer) evs
  /\ _isClosed (self failed_client) = true
  /\ timers (run evs failed_client) <> []
  /\ closes (trace failed_client) = 1%nat
  /\ closes (trace (run evs failed_client)) = closes (trace failed_client)
  /\ _isClosed (self (step (run evs failed_client) ReconnectTimer)) = false.
Proof.
  intros evs.
  assert (Hevs : Forall (fun ev => ev <> ReconnectTimer) evs)
    by (repeat constructor; discriminate).
  assert (G : _isClosed (self failed_client) = true) by reflexivity.
  assert (T : timers (run evs failed_client) <> []) by (vm_compute; discriminate).
  destruct (close_delivered_at_most_once failed_client Hevs) as (_ & Hg & _ & Ht).
  destruct (Hg G) as (_ & E & _).
  split; [ reflexivity | ].
  split; [ exact Hevs | ]. split; [ exact G | ]. split; [ exact T | ].
  split; [ reflexivity | ]. split; [ exact E | exact (Ht T) ].
Defined.

(** ** C4: close and reconnection *)

(** [$onclose] returns normally; it starts no timer and leaves the
    options and [type] alone. *)
Lemma onclose_footprint {C : Collaborators} st :
  exists st',
    onclose st = (Ok tt, st')
    /\ scheduled (trace st') = scheduled (trace st)
    /\ timers st' = timers st
    /\ options (self st') = options (self st)
    /\ self_type (self st') = self_type (self st)
    /\ _isClosed (self st') = true.
Proof.
  destruct (_isClosed (self st)) eqn:G.
  - exists st. rewrite (onclose_guarded _ G). auto 10.
  - open_state st. subst. unfold onclose, emit_if_subscribed, emit.
    destruct inflate0, deflate0, (events0 "close") as [ | h hs ] eqn:E, socket0;
      repeat (progress (msimpl; rewrite ?E));
      try (destruct (existsb h_once (h :: hs)); msimpl);
      (eexists; split; [ reflexivity | ]);
      msimpl; repeat rewrite ?scheduled_app; cbn;
      rewrite ?app_nil_r; repeat split; reflexivity.
Qed.

(** [websocket_close] starts a timer exactly when [options.reconnect] is
    not zero. *)
Lemma websocket_close_schedules {C : Collaborators} st :
  let st' := exec websocket_close st in
  let delay := o_reconnect (options (self st)) in
  scheduled (trace st') = scheduled (trace st) ++ (if delay =? 0 then [] else [delay])
  /\ timers st' = timers st ++ (if delay =? 0 then [] else [delay])
  /\ options (self st') = options (self st)
  /\ self_type (self st') = self_type (self st).
Proof.
  intros st' delay. subst st' delay. unfold websocket_close.
  open_state st. msimpl.
  match goal with
  | |- context [ onclose ?s ] =>
      destruct (onclose_footprint s) as (st1 & E & Fs & Ft & Fo & Fy & _)
  end.
  rewrite E. open_state st1. inversion Fo; subst.
  destruct (o_reconnect0 =? 0); msimpl;
    repeat rewrite scheduled_app; rewrite Fs; cbn; rewrite ?app_nil_r;
    repeat split; auto.
Qed.

Section ReconnectOff.

Context {C : Collaborators}.
Variable ts : list Z.

Lemma reconnect_off_modify f : gentle f -> stable (reconnect_off ts) (modify f).
Proof.
  intros Hg st [R S]. unfold reconnect_off. cbn.
  destruct (Hg (self st)) as (_ & _ & _ & _ & E). split; [ apply E; exact R | ].
  destruct st; exact S.
Qed.

Lemma reconnect_off_tell e : quiet e = true -> stable (reconnect_off ts) (tell e).
Proof.
  intros Hq st [R S]. unfold reconnect_off. destruct st as [ws tr a b c].
  msimpl. msimpl_in R. msimpl_in S. rewrite (scheduled_quiet _ _ Hq).
  split; assumption.
Qed.

Lemma reconnect_off_current f : stable (reconnect_off ts) (modify_current f).
Proof. intros st H. destruct st as [[] ? ? ? ?]. exact H. Qed.

Lemma reconnect_off_queues st a b c :
  reconnect_off ts st -> reconnect_off ts (MkSt (self st) (trace st) a b c).
Proof. intros H. exact H. Qed.

Lemma reconnect_off_onclose : stable (reconnect_off ts) onclose.
Proof.
  intros st [R S]. destruct (onclose_footprint st) as (st1 & E & Fs & _ & Fo & _).
  rewrite E. unfold reconnect_off. cbn [snd]. rewrite Fs, Fo. split; assumption.
Qed.

Lemma reconnect_off_websocket_close : stable (reconnect_off ts) websocket_close.
Proof.
  intros st [R S]. destruct (websocket_close_schedules st) as (Fs & _ & Fo & _).
  unfold exec in *. unfold reconnect_off. rewrite Fs, Fo, R. cbn.
  rewrite app_nil_r. split; [ reflexivity | exact S ].
Qed.

Lemma reconnect_off_timer : stable (reconnect_off ts) reconnect_timer.
Proof.
  intros st [R S]. open_state st. unfold reconnect_off, reconnect_timer, connect.
  msimpl. repeat rewrite scheduled_app. cbn. rewrite ?app_nil_r.
  split; assumption.
Qed.

Lemma reconnect_off_step ev : stable (reconnect_off ts) (handle ev).
Proof.
  destruct (event_eq_timer ev) as [-> | Hev].
  - intros st H. cbn [handle]. destruct (timers st) as [ | d rest ] eqn:E.
    + exact H.
    + apply reconnect_off_timer. destruct st. exact H.
  - apply stable_handle;
      auto using reconnect_off_modify, reconnect_off_tell, reconnect_off_queues,
        reconnect_off_current,
        reconnect_off_onclose, reconnect_off_websocket_close.
Qed.

Lemma reconnect_off_run evs : forall st,
  reconnect_off ts st -> reconnect_off ts (run evs st).
Proof.
  induction evs as [ | ev evs IH ]; intros st H; cbn.
  - exact H.
  - apply IH. exact (reconnect_off_step ev H).
Qed.

End ReconnectOff.

(** What [close] does to the options. *)
Lemma close_options {C : Collaborators} st message code :
  let st1 := exec (close message code) st in
  scheduled (trace st1) = scheduled (trace st)
  /\ options (self st1)
     = if is_true_sentinel message then options (self st)
       else set_o_reconnect 0 (options (self st)).
Proof.
  open_state st. unfold close, socket_end.
  destruct (is_true_sentinel message), isClosed0, socket0; msimpl;
    repeat rewrite scheduled_app; cbn; rewrite ?app_nil_r; split; reflexivity.
Qed.

(** C4. [close(true, code)] leaves the options as they are, so the next
    closure of the socket starts the reconnect timer when the configured
    delay is not zero. After [close] with any other first argument the
    delay is zero, and it stays zero and no timer is started, whatever
    happens next. *)
Theorem close_keeps_or_disables_reconnect {C : Collaborators}
    (st : St) (message code : jsval) (evs : list event) :
  let st1 := exec (close message code) st in
  let delay := o_reconnect (options (self st)) in
  if is_true_sentinel message
  then options (self st1) = options (self st)
       /\ scheduled (trace (step st1 SocketClosed))
          = scheduled (trace st1) ++ (if delay =? 0 then [] else [delay])
       /\ timers (step st1 SocketClosed)
          = timers st1 ++ (if delay =? 0 then [] else [delay])
  else o_reconnect (options (self st1)) = 0
       /\ o_reconnect (options (self (run evs st1))) = 0
       /\ scheduled (trace (run evs st1)) = scheduled (trace st1).
Proof.
  intros st1 delay. destruct (close_options st message code) as [Hs Ho].
  fold st1 in Hs, Ho. destruct (is_true_sentinel message).
  - destruct (websocket_close_schedules st1) as (Fs & Ft & _).
    rewrite Ho in Fs, Ft. unfold step. cbn [handle]. auto.
  - assert (R : reconnect_off (scheduled (trace st1)) st1).
    { split; [ rewrite Ho; destruct (options (self st)); reflexivity | reflexivity ]. }
    destruct (reconnect_off_run evs R) as [R1 R2]. destruct R as [R0 _]. auto.
Qed.

(** Two calls for C4 on an open client with [options.reconnect = 3000].
    After [close(true)] the closure of the socket starts the timer; after
    [close('bye', 1000)] the delay is zero and the closure of the socket,
    a timer, an upgrade and a second closure start none. *)
Lemma close_keeps_or_disables_reconnect_witness :
  let st := opened text_options false in
  let kept := exec (close (JBool true) JUndefined) st in
  let off := exec (close (JStr "bye") (JNum 1000)) st in
  let later := [SocketClosed; ReconnectTimer; Upgrade true false; SocketClosed] in
  (options (self kept) = options (self st)
   /\ scheduled (trace (step kept SocketClosed)) = [3000])
  /\ (o_reconnect (options (self off)) = 0
      /\ scheduled (trace (run later off)) = []).
Proof.
  intros st kept off later.
  pose proof (@close_keeps_or_disables_reconnect plain_collaborators
                st (JBool true) JUndefined []) as H1.
  pose proof (@close_keeps_or_disables_reconnect plain_collaborators
                st (JStr "bye") (JNum 1000) later) as H2.
  cbv zeta in H1, H2. cbn [is_true_sentinel] in H1, H2.
  destruct H1 as (A & B & _). destruct H2 as (Z0 & _ & D).
  split; split.
  - exact A.
  - unfold kept. rewrite B. vm_compute. reflexivity.
  - exact Z0.
  - unfold off. rewrite D. vm_compute. reflexivity.
Defined.

(** The sentinel of [close] is the boolean [true] and nothing else. *)
Lemma is_true_sentinel_iff message :
  is_true_sentinel message = true <-> message = JBool true.
Proof.
  split.
  - destruct message as [ | | [ | ] | | | | ]; cbn; congruence.
  - intros ->. reflexivity.
Qed.

(** ** The client has no [type] property *)

Section Untyped.

Context {C : Collaborators}.

Lemma untyped_modify f : gentle f -> stable untyped (modify f).
Proof.
  intros Hg st H. unfold untyped in *. cbn.
  destruct (Hg (self st)) as (_ & E & _). rewrite E. exact H.
Qed.

Lemma untyped_tell e : stable untyped (tell e).
Proof. intros st H. exact H. Qed.

Lemma untyped_current f : stable untyped (modify_current f).
Proof. intros st H. destruct st as [[] ? ? ? ?]. exact H. Qed.

Lemma untyped_queues st a b c :
  untyped st -> untyped (MkSt (self st) (trace st) a b c).
Proof. intros H. exact H. Qed.

Lemma untyped_onclose : stable untyped onclose.
Proof.
  intros st H. destruct (onclose_footprint st) as (st1 & E & _ & _ & _ & Fy & _).
  rewrite E. unfold untyped in *. cbn [snd]. rewrite Fy. exact H.
Qed.

Lemma untyped_websocket_close : stable untyped websocket_close.
Proof.
  intros st H. destruct (websocket_close_schedules st) as (_ & _ & _ & Fy).
  unfold exec, untyped in *. rewrite Fy. exact H.
Qed.

Lemma untyped_timer : stable untyped reconnect_timer.
Proof.
  intros st H. open_state st. unfold untyped, reconnect_timer, connect in *.
  msimpl. exact H.
Qed.

Lemma untyped_step ev : stable untyped (handle ev).
Proof.
  destruct (event_eq_timer ev) as [-> | Hev].
  - intros st H. cbn [handle]. destruct (timers st) as [ | d rest ] eqn:E.
    + exact H.
    + apply untyped_timer. destruct st. exact H.
  - apply stable_handle;
      auto using untyped_modify, untyped_tell, untyped_queues, untyped_current,
        untyped_onclose, untyped_websocket_close.
Qed.

Lemma untyped_run evs : forall st, untyped st -> untyped (run evs st).
Proof.
  induction evs as [ | ev evs IH ]; intros st H; cbn.
  - exact H.
  - apply IH. exact (untyped_step ev H).
Qed.

End Untyped.

(** ** The size limit of [$parse] *)

Ltac split_ifs :=
  repeat (match goal with
          | |- context [ if ?c then _ else _ ] => destruct c eqn:?
          end; msimpl).

Lemma js_or_string s : js_or (JStr s) (JStr EmptyString) = JStr s.
Proof. destruct s; reflexivity. Qed.

(** [$parse] on an accumulator that holds the header of a frame with a
    payload (the parser is past its checks of the buffered and of the
    decoded length). With [limit = options.length] and [frame_size] the
    header index plus the payload length:
    - if [limit] is not zero and [frame_size] exceeds it, the connection is
      closed as by [close('Frame is too large', 1009)]: a close frame of
      code 1009 with that reason is written (the reason in the URI
      encoding of the connection when [options.encodedecode] is set),
      reconnection is switched off and [$parse] returns [false], so that
      [$ondata] returns without a dispatch and nothing is delivered;
    - otherwise, in particular when [frame_size] equals [limit] and when
      [limit] is zero, nothing is written and the connection stays open;
      [$parse] returns [true] as soon as the accumulator holds
      [frame_size] bytes and records that size in [current.length]
      ([ondata_data_frame] follows a data frame from there to its
      delivery). *)
Theorem frame_size_limit {C : Collaborators} (st : St) (b : bytes) :
  buffer (current (self st)) = Some b ->
  isClosed (self st) = false ->
  socket (self st) = true ->
  2 < Buffer.len b ->
  0 < getMessageLength b ->
  let limit := o_length (options (self st)) in
  let r := parse st in
  if negb (limit =? 0) && (limit <? frame_size b)
  then fst r = Ok false
       /\ trace (snd r)
          = trace (exec (close (JStr "Frame is too large") (JNum 1009)) st)
       /\ trace (snd r) = trace st ++ [SocketEnd (too_large_frame (self st))]
       /\ isClosed (self (snd r)) = true
       /\ o_reconnect (options (self (snd r))) = 0
       /\ body (current (self (snd r))) = body (current (self st))
  else fst r = Ok (negb (Buffer.len b <? frame_size b))
       /\ trace (snd r) = trace st
       /\ isClosed (self (snd r)) = false
       /\ options (self (snd r)) = options (self st)
       /\ (frame_size b <= Buffer.len b ->
           clength (current (self (snd r))) = frame_size b).
Proof.
  intros Hb Hc Hs Hlen Hpay limit r. subst limit r.
  open_state st. subst.
  apply Z.leb_gt in Hlen. apply Z.leb_gt in Hpay.
  unfold parse, close, socket_end, too_large_frame, reason_on_wire, frame_size,
    frame_index, frame_masked.
  msimpl. rewrite Hlen. msimpl. rewrite Hpay. msimpl.
  match goal with
  | |- context [ negb (o_length0 =? 0) && (o_length0 <? ?m) ] =>
      destruct (negb (o_length0 =? 0) && (o_length0 <? m)) eqn:Hlimit
  end; msimpl.
  - destruct encodedecode0; msimpl; rewrite ?js_or_string; repeat split; reflexivity.
  - match goal with
    | |- context [ Buffer.len b <? ?m ] => destruct (Buffer.len b <? m) eqn:Hfull
    end; msimpl.
    + repeat split; try reflexivity. intros Hle.
      apply Z.ltb_lt in Hfull. lia.
    + split_ifs; repeat split; reflexivity.
Qed.

(** When [$parse] returns [false], [$ondata] returns without a dispatch. *)
Lemma ondata_unparsed {C : Collaborators} st chunk :
  isClosed (self st) = false ->
  fst (parse (received chunk st)) = Ok false ->
  ondata chunk st = (Ok tt, snd (parse (received chunk st))).
Proof.
  intros Hc Hp. open_state st. subst.
  unfold ondata, received in *. cbn [ondata_rec]. revert Hp. msimpl.
  match goal with
  | |- context [ parse ?s ] => destruct (parse s) as [[[ | ] | e] st1]
  end; intros Hp; try discriminate. reflexivity.
Qed.

(** Three limits for the frame [82 01 42] of size 3 received by an open
    client: with the limit 3 and with the limit 0 it is parsed and
    delivered, with the limit 2 the connection is closed with code 1009. *)
Lemma frame_size_limit_witness :
  (forall limit,
     limited_client limit = received data_frame (opened (limited_options limit) false))
  /\ (buffer (current (self (limited_client 3))) = Some data_frame
      /\ isClosed (self (limited_client 3)) = false
      /\ socket (self (limited_client 3)) = true
      /\ 2 < Buffer.len data_frame
      /\ 0 < getMessageLength data_frame)
  /\ (fst (parse (limited_client 3)) = Ok true
      /\ trace (snd (parse (limited_client 3))) = []
      /\ isClosed (self (snd (parse (limited_client 3)))) = false)
  /\ (fst (parse (limited_client 0)) = Ok true
      /\ trace (snd (parse (limited_client 0))) = []
      /\ isClosed (self (snd (parse (limited_client 0)))) = false)
  /\ (fst (parse (limited_client 2)) = Ok false
      /\ trace (snd (parse (limited_client 2)))
         = [SocketEnd (Frame (JNum 1009) (JStr "Frame is too large") 0x08 false false)]
      /\ isClosed (self (snd (parse (limited_client 2)))) = true)
  /\ emitted "message"
       (trace (step (opened (limited_options 3) false) (SocketData data_frame)))
     = [[JBuf [0x42]]]
  /\ emitted "message"
       (trace (step (opened (limited_options 2) false) (SocketData data_frame)))
     = [].
Proof.
  assert (Hlen : 2 < Buffer.len data_frame) by reflexivity.
  assert (Hpay : 0 < getMessageLength data_frame) by reflexivity.
  pose proof (@frame_size_limit plain_collaborators (limited_client 3) data_frame
                eq_refl eq_refl eq_refl Hlen Hpay) as H3.
  pose proof (@frame_size_limit plain_collaborators (limited_client 0) data_frame
                eq_refl eq_refl eq_refl Hlen Hpay) as H0.
  pose proof (@frame_size_limit plain_collaborators (limited_client 2) data_frame
                eq_refl eq_refl eq_refl Hlen Hpay) as H2.
  cbv zeta in H3, H0, H2.
  change (negb (o_length (options (self (limited_client 3))) =? 0)
          && (o_length (options (self (limited_client 3))) <? frame_size data_frame))
    with false in H3.
  change (negb (o_length (options (self (limited_client 0))) =? 0)
          && (o_length (options (self (limited_client 0))) <? frame_size data_frame))
    with false in H0.
  change (negb (o_length (options (self (limited_client 2))) =? 0)
          && (o_length (options (self (limited_client 2))) <? frame_size data_frame))
    with true in H2.
  cbv iota in H3, H0, H2.
  destruct H3 as (A3 & B3 & C3 & _).
  destruct H0 as (A0 & B0 & C0 & _).
  destruct H2 as (A2 & _ & B2 & C2 & _).
  split; [ intros limit; reflexivity | ].
  split; [ repeat split; solve [ reflexivity | assumption ] | ].
  split; [ split; [ exact A3 | split; [ exact B3 | exact C3 ] ] | ].
  split; [ split; [ exact A0 | split; [ exact B0 | exact C0 ] ] | ].
  split; [ split; [ exact A2 | split; [ exact B2 | exact C2 ] ] | ].
  split; vm_compute; reflexivity.
Defined.

(** ** Buffers *)

Lemma chunks_total_cons c chunks :
  chunks_total (c :: chunks) = Buffer.len c + chunks_total chunks.
Proof. reflexivity. Qed.

Lemma chunks_total_length chunks :
  chunks_total chunks = Z.of_nat (List.length (List.concat chunks)).
Proof.
  induction chunks as [ | c cs IH ]; [ reflexivity | ].
  rewrite chunks_total_cons, IH. cbn [List.concat]. rewrite length_app.
  unfold Buffer.len. lia.
Qed.

Lemma chunks_total_app xs ys :
  chunks_total (xs ++ ys) = chunks_total xs + chunks_total ys.
Proof.
  induction xs as [ | c cs IH ]; [ reflexivity | ].
  cbn [app]. rewrite !chunks_total_cons, IH. lia.
Qed.

(** Copying a whole buffer into a zero-filled target that has room for it. *)
Lemma copy_into_zeros (b front : bytes) (n : nat) :
  Buffer.copy b (front ++ repeat 0 (List.length b + n)) (Buffer.len front) 0 (Buffer.len b)
  = (front ++ b) ++ repeat 0 n.
Proof.
  unfold Buffer.copy, Buffer.len.
  rewrite Z.sub_0_r, !Nat2Z.id. cbn [Z.to_nat skipn].
  rewrite firstn_all.
  rewrite skipn_app, skipn_all, Nat.sub_diag. cbn [skipn app].
  rewrite firstn_app, firstn_all, Nat.sub_diag. cbn [firstn]. rewrite app_nil_r.
  rewrite repeat_length.
  rewrite firstn_all2 by lia.
  rewrite repeat_app, skipn_app, repeat_length.
  rewrite skipn_all2 by (rewrite repeat_length; lia).
  rewrite Nat.sub_diag. cbn [skipn app].
  rewrite <- app_assoc. reflexivity.
Qed.

Lemma buffer_concat_from_zeros chunks : forall front,
  buffer_concat_from chunks
    (front ++ repeat 0 (List.length (List.concat chunks))) (Buffer.len front)
  = front ++ List.concat chunks.
Proof.
  induction chunks as [ | c cs IH ]; intros front; cbn [buffer_concat_from List.concat].
  - cbn. reflexivity.
  - rewrite length_app, copy_into_zeros.
    replace (Buffer.len front + Buffer.len c) with (Buffer.len (front ++ c))
      by (unfold Buffer.len; rewrite length_app; lia).
    rewrite IH, <- app_assoc. reflexivity.
Qed.

(** [buffer_concat] of chunks with their total length is their
    concatenation. *)
Lemma buffer_concat_total chunks :
  buffer_concat chunks (chunks_total chunks) = List.concat chunks.
Proof.
  unfold buffer_concat, Buffer.alloc.
  rewrite chunks_total_length, Nat2Z.id.
  apply (buffer_concat_from_zeros chunks []).
Qed.


Lemma ends_with_length tail b : ends_with tail b -> (List.length tail <= List.length b)%nat.
Proof. intros [front ->]. rewrite length_app. lia. Qed.
(** ** C5: the deflated frame *)











(** ** C6: the inflate pipeline *)

(** The ['data'] events of the inflate stream collect the chunks. *)
Lemma inflate_data_run {C : Collaborators} chunks : forall st acc,
  inflatechunks (self st) = Some acc ->
  run (map InflateData chunks) st
  = set_self
      (set_inflatechunkslength (inflatechunkslength (self st) + chunks_total chunks)
         (set_inflatechunks (Some (acc ++ chunks)) (self st))) st.
Proof.
  induction chunks as [ | c cs IH ]; intros st acc H.
  - open_state st. subst. cbn. rewrite Z.add_0_r, app_nil_r. reflexivity.
  - cbn [map run fold_left].
    change (fold_left step (map InflateData cs) (step st (InflateData c)))
      with (run (map InflateData cs) (step st (InflateData c))).
    assert (E : step st (InflateData c)
                = set_self
                    (set_inflatechunkslength (inflatechunkslength (self st) + Buffer.len c)
                       (set_inflatechunks (Some (acc ++ [c])) (self st))) st).
    { open_state st. subst. unfold step. cbn [handle]. unfold websocket_inflate.
      msimpl. reflexivity. }
    rewrite E. rewrite (IH _ (acc ++ [c])).
    + open_state st. subst. msimpl.
      rewrite <- app_assoc, chunks_total_cons, Z.add_assoc. reflexivity.
    + open_state st. reflexivity.
Qed.

(** [parseInflate] and [close] deliver nothing. *)
Lemma parseInflate_silent {C : Collaborators} name st :
  emitted name (trace (exec parseInflate st)) = emitted name (trace st).
Proof.
  open_state st. unfold parseInflate, inflate_write, inflate_flush.
  destruct inflatelock0, inflatepending0 as [ | [b c] rest ], inflate0;
    msimpl; try reflexivity;
    destruct c; msimpl; repeat rewrite emitted_app; cbn; rewrite ?app_nil_r;
    reflexivity.
Qed.

Lemma close_silent {C : Collaborators} name message code st :
  emitted name (trace (exec (close message code) st)) = emitted name (trace st).
Proof.
  open_state st. unfold close, socket_end.
  destruct (is_true_sentinel message), isClosed0, socket0; msimpl;
    repeat rewrite emitted_app; cbn; rewrite ?app_nil_r; reflexivity.
Qed.

(** [$decode] delivers [decoded] to the subscribers of [message]. *)
Lemma decode_delivers {C : Collaborators} st b :
  body (current (self st)) = Some b ->
  emitted "message" (trace (exec decode st))
  = emitted "message" (trace st)
    ++ match events (self st) "message" with
       | [] => []
       | _ => decoded (self st) b
       end.
Proof.
  intros Hb. open_state st. subst. unfold decode, decoded, emit, decode_text.
  msimpl.
  destruct typebuffer0, (events0 "message") as [ | h hs ] eqn:E;
    msimpl; rewrite ?E; msimpl;
    repeat (match goal with
            | |- context [ if ?c then _ else _ ] => destruct c eqn:?
            | |- context [ match parseJSON ?s with _ => _ end ] =>
                destruct (parseJSON s) eqn:?
            end; msimpl; rewrite ?E; msimpl);
    repeat rewrite emitted_app; cbn [emitted flat_map String.eqb Ascii.eqb Bool.eqb app];
    rewrite ?app_nil_r; reflexivity.
Qed.

(** [parseInflate] on an idle pipeline with [buf] at the head of the queue. *)
Lemma parseInflate_dequeue {C : Collaborators} st buf rest :
  inflate (self st) = true ->
  inflatelock (self st) = false ->
  inflatepending (self st) = buf :: rest ->
  parseInflate st
  = (Ok tt,
     MkSt (set_inflatelock true
             (set_inflatechunkslength 0
                (set_inflatechunks (Some [])
                   (set_inflatepending rest (self st)))))
          (trace st
             ++ InflateWrite (ib_bytes buf)
                :: (if ib_continue buf then [] else [InflateWrite WEBSOCKET_COMPRESS])
             ++ [InflateFlush])
          (inflate_flushes st ++ [buf]) (deflate_flushes st) (timers st)).
Proof.
  intros Hi Hl Hp. open_state st. subst.
  unfold parseInflate, inflate_write, inflate_flush.
  destruct buf as [b [ | ]]; msimpl; cbn [app]; repeat rewrite <- app_assoc;
    reflexivity.
Qed.

(** C6. A buffer [buf] at the head of the inflate queue, with the pipeline
    idle: [parseInflate] writes it into the inflate context, followed by
    the sentinel [00 00 FF FF] exactly when its [$continue] mark is false,
    and flushes. The stream answers with [chunks] and the flush callback
    runs. Unless the inflated bytes exceed [options.length] (the
    connection is then closed): for a non-terminating fragment they are
    appended to the body and no message is delivered; for a terminating
    fragment the body with these bytes is decoded and delivered. *)
Theorem inflate_fragment {C : Collaborators}
    (st : St) (buf : ibuf) (rest : list ibuf) (chunks : list bytes) :
  inflate (self st) = true ->
  inflatelock (self st) = false ->
  inflatepending (self st) = buf :: rest ->
  inflate_flushes st = [] ->
  let data := List.concat chunks in
  let whole := match body (current (self st)) with
               | Some b => b ++ data
               | None => data
               end in
  let st1 := exec parseInflate st in
  let st' := run (map InflateData chunks ++ [InflateFlushed]) st1 in
  inflate_input (trace st1)
  = inflate_input (trace st)
    ++ ib_bytes buf :: (if ib_continue buf then [] else [WEBSOCKET_COMPRESS])
  /\ if over_limit (self st) (Buffer.len data)
     then emitted "message" (trace st') = emitted "message" (trace st)
          /\ body (current (self st')) = body (current (self st))
     else if ib_continue buf
     then emitted "message" (trace st') = emitted "message" (trace st)
          /\ body (current (self st')) = Some whole
     else emitted "message" (trace st')
          = emitted "message" (trace st)
            ++ match events (self st) "message" with
               | [] => []
               | _ => decoded (self st) whole
               end.
Proof.
  intros Hi Hl Hp Hf data whole st1 st'. subst data whole st1 st'.
  unfold exec. rewrite (parseInflate_dequeue st Hi Hl Hp). cbn [snd].
  split.
  - cbn [trace]. rewrite inflate_input_app.
    destruct (ib_continue buf); reflexivity.
  - rewrite run_app.
    rewrite (inflate_data_run chunks _ (acc := []))
      by (open_state st; reflexivity).
    unfold over_limit.
    assert (Hq : forall tr : list effect,
               emitted "message"
                 (tr ++ InflateWrite (ib_bytes buf)
                     :: (if ib_continue buf then [] else [InflateWrite WEBSOCKET_COMPRESS])
                     ++ [InflateFlush])
               = emitted "message" tr).
    { intros tr. rewrite emitted_app. destruct (ib_continue buf); cbn;
        apply app_nil_r. }
    open_state st. subst. unfold run. cbn [fold_left]. unfold step. cbn [handle].
    msimpl. unfold parseInflate_flushed. msimpl.
    cbn [app]. rewrite Z.add_0_l, buffer_concat_total.
    match goal with
    | |- context [ negb (o_length0 =? 0) && (o_length0 <? ?n) ] =>
        destruct (negb (o_length0 =? 0) && (o_length0 <? n)) eqn:Hover
    end; msimpl.
    + match goal with
      | |- context [ close ?m ?c ?s ] =>
          pose proof (close_silent "message" m c s) as Hc;
          assert (Hb : body (current (self (exec (close m c) s))) = body0)
            by (unfold close, socket_end;
                destruct isClosed0, socket0; msimpl; reflexivity);
          unfold exec in Hc, Hb; destruct (close m c s) as [o s']
      end.
      open_state s'. msimpl_in Hc. msimpl_in Hb. rewrite Hq in Hc.
      split; assumption.
    + destruct (ib_continue buf) eqn:Hcont; msimpl.
      * match goal with
        | |- context [ parseInflate ?s ] =>
            pose proof (parseInflate_silent "message" s) as Hs;
            assert (Hb : body (current (self (exec parseInflate s)))
                         = body (current (self s)))
              by (unfold parseInflate, inflate_write, inflate_flush;
                  destruct rest as [ | [b' [ | ]] rest' ]; msimpl; reflexivity);
            unfold exec in Hs, Hb; destruct (parseInflate s) as [o s']
        end.
        open_state s'. msimpl_in Hs. msimpl_in Hb. rewrite Hq in Hs.
        split; [ exact Hs | ]. rewrite Hb. destruct body0; reflexivity.
      * match goal with
        | |- context [ decode ?s ] =>
            pose proof (@decode_delivers C s
                          (match body0 with
                           | Some b0 => Buffer.concat b0 (List.concat chunks)
                           | None => List.concat chunks
                           end) eq_refl) as Hd;
            unfold exec in Hd; destruct (decode s) as [[[] | e] s2]
        end; msimpl_in Hd; rewrite Hq in Hd; msimpl.
        -- pose proof (parseInflate_silent "message" s2) as Hs.
           unfold exec in Hs. destruct (parseInflate s2) as [o s3].
           open_state s3. open_state s2. msimpl_in Hs. msimpl_in Hd.
           rewrite Hs, Hd. unfold decoded. msimpl.
           destruct body0; reflexivity.
        -- open_state s2. msimpl_in Hd. rewrite Hd. unfold decoded. msimpl.
           destruct body0; reflexivity.
Qed.

(** Two runs for C6 on an open client with compression and binary
    payloads. A non-terminating fragment that inflates to [48 65] is
    appended to the body without a delivery and without the sentinel; a
    terminating fragment that inflates to [6C 6C 6F] on top of the body
    [48 65] is written with the sentinel and delivers [48 65 6C 6C 6F]. *)
Lemma inflate_fragment_witness :
  let first := inflating_client true None in
  let last := inflating_client false (Some [0x48; 0x65]) in
  let fed chunks st :=
    run (map InflateData chunks ++ [InflateFlushed]) (exec parseInflate st) in
  (forall continue held,
     inflating_client continue held
     = exec (bind (modify_current (set_body held))
                  (fun _ => modify (set_inflatepending [IBuf [0xF2; 0x48] continue])))
            (opened binary_options true))
  /\ (inflate (self first) = true
      /\ inflatelock (self first) = false
      /\ inflatepending (self first) = [IBuf [0xF2; 0x48] true]
      /\ inflate_flushes first = [])
  /\ (inflate_input (trace (exec parseInflate first)) = [[0xF2; 0x48]]
      /\ emitted "message" (trace (fed [[0x48]; [0x65]] first)) = []
      /\ body (current (self (fed [[0x48]; [0x65]] first))) = Some [0x48; 0x65])
  /\ (inflate_input (trace (exec parseInflate last))
      = [[0xF2; 0x48]; WEBSOCKET_COMPRESS]
      /\ emitted "message" (trace (fed [[0x6C; 0x6C; 0x6F]] last))
         = [[JBuf [0x48; 0x65; 0x6C; 0x6C; 0x6F]]]).
Proof.
  intros first last fed.
  pose proof (@inflate_fragment plain_collaborators first
                (IBuf [0xF2; 0x48] true) [] [[0x48]; [0x65]]
                eq_refl eq_refl eq_refl eq_refl) as H1.
  pose proof (@inflate_fragment plain_collaborators last
                (IBuf [0xF2; 0x48] false) [] [[0x6C; 0x6C; 0x6F]]
                eq_refl eq_refl eq_refl eq_refl) as H2.
  cbv zeta in H1, H2.
  change (over_limit (self first) (Buffer.len (List.concat [[0x48]; [0x65]])))
    with false in H1.
  change (over_limit (self last) (Buffer.len (List.concat [[0x6C; 0x6C; 0x6F]])))
    with false in H2.
  cbv iota in H1, H2. cbn [ib_continue ib_bytes] in H1, H2. cbv iota in H1, H2.
  destruct H1 as (A1 & B1 & C1). destruct H2 as (A2 & B2).
  split; [ intros continue held; reflexivity | ].
  split; [ repeat split; reflexivity | ].
  split; [ split; [ exact A1 | split; [ exact B1 | exact C1 ] ] | ].
  split; [ exact A2 | exact B2 ].
Defined.

(** ** The depth of [$ondata] *)

(** When [$parse] returns [true] the accumulator is as it was and
    [current.length] is positive. *)
Lemma parse_true {C : Collaborators} st st' :
  parse st = (Ok true, st') ->
  buffer (current (self st')) = buffer (current (self st))
  /\ 1 <= clength (current (self st')).
Proof.
  open_state st. unfold parse. destruct buffer0 as [ b | ]; msimpl;
    [ | discriminate ].
  destruct (Buffer.len b <=? 2); msimpl; [ discriminate | ].
  destruct (getMessageLength b <=? 0) eqn:Hpay; msimpl; [ discriminate | ].
  apply Z.leb_gt in Hpay.
  match goal with
  | |- context [ negb (o_length0 =? 0) && (o_length0 <? ?m) ] =>
      destruct (negb (o_length0 =? 0) && (o_length0 <? m))
  end; msimpl.
  - match goal with
    | |- context [ close ?m ?c ?s ] => destruct (close m c s) as [[[] | e] s']
    end; discriminate.
  - match goal with
    | |- context [ Buffer.len b <? ?m ] => destruct (Buffer.len b <? m)
    end; msimpl; [ discriminate | ].
    split_ifs; intros E; apply (f_equal snd) in E; cbn [snd] in E;
      rewrite <- E; msimpl; split; try reflexivity; lia.
Qed.

Lemma parse_no_buffer {C : Collaborators} st :
  buffer (current (self st)) = None -> parse st = (Ok false, st).
Proof. intros H. open_state st. subst. reflexivity. Qed.

Section HoldsFrame.

Context {C : Collaborators}.
Variables (b : bytes) (n : Z).

Lemma holds_frame_modify f : gentle f -> stable (holds_frame b n) (modify f).
Proof.
  intros Hg st H. unfold holds_frame in *. cbn.
  destruct (Hg (self st)) as (_ & _ & Eb & En & _). rewrite Eb, En. exact H.
Qed.

Lemma holds_frame_tell e : quiet e = true -> stable (holds_frame b n) (tell e).
Proof. intros _ st H. exact H. Qed.

Lemma holds_frame_queues st x y z :
  holds_frame b n st -> holds_frame b n (MkSt (self st) (trace st) x y z).
Proof. intros H. exact H. Qed.

Lemma holds_frame_drop : stable (holds_frame b n) (modify_current (set_buffer None)).
Proof. intros st H. left. reflexivity. Qed.

Lemma holds_frame_dispatch : stable (holds_frame b n) ondata_dispatch.
Proof.
  unfold ondata_dispatch.
  repeat first
    [ apply holds_frame_drop
    | apply stable_ondata_message;
        auto using holds_frame_modify, holds_frame_tell, holds_frame_queues
    | apply stable_ondata_close;
        auto using holds_frame_modify, holds_frame_tell, holds_frame_queues
    | apply stable_socket_write;
        auto using holds_frame_modify, holds_frame_tell, holds_frame_queues
    | stable_step holds_frame_modify holds_frame_tell ].
Qed.

End HoldsFrame.

(** Continuations that agree on what a computation returns. *)
Lemma bind_ext A B (c : M A) (k1 k2 : A -> M B) st :
  (forall a st', c st = (Ok a, st') -> k1 a st' = k2 a st') ->
  bind c k1 st = bind c k2 st.
Proof.
  intros H. unfold bind. destruct (c st) as [[a | e] st']; [ | reflexivity ].
  apply H. reflexivity.
Qed.

(** A slice from a positive offset is shorter than the buffer. *)
Lemma slice_shorter (b : bytes) (n : Z) :
  1 <= n ->
  Buffer.len (Buffer.slice b n (Buffer.len b)) <> 0 ->
  (List.length (Buffer.slice b n (Buffer.len b)) < List.length b)%nat.
Proof.
  intros Hn Hne. unfold Buffer.slice, Buffer.clamp, Buffer.len in *.
  destruct (n <? 0) eqn:E1; [ apply Z.ltb_lt in E1; lia | ].
  destruct (Z.of_nat (List.length b) <? 0) eqn:E2; [ apply Z.ltb_lt in E2; lia | ].
  rewrite length_firstn, length_skipn in *.
  rewrite Z.min_id in *. lia.
Qed.

(** Above the number of buffered bytes, the depth does not matter:
    [$ondata] never runs out of it. *)
Lemma ondata_rec_depth {C : Collaborators} depth : forall chunk st,
  (buffered chunk st < depth)%nat ->
  ondata_rec depth chunk st = ondata_rec (S depth) chunk st.
Proof.
  induction depth as [ | depth IH ]; intros chunk st Hd; [ lia | ].
  cbn [ondata_rec]. unfold buffered in Hd.
  assert (Hstep : forall st1 B,
             buffer (current (self st1)) = Some B ->
             (List.length B < S depth)%nat ->
             (parsed <- parse ;;
              if negb parsed then skip
              else
                ondata_dispatch ;;
                ws <- this ;;
                match buffer (current ws) with
                | None => skip
                | Some b =>
                    let b' := Buffer.slice b (clength (current ws)) (Buffer.len b) in
                    modify_current (set_buffer (Some b')) ;;
                    if negb (Buffer.len b' =? 0) then ondata_rec depth None else skip
                end) st1
             = (parsed <- parse ;;
                if negb parsed then skip
                else
                  ondata_dispatch ;;
                  ws <- this ;;
                  match buffer (current ws) with
                  | None => skip
                  | Some b =>
                      let b' := Buffer.slice b (clength (current ws)) (Buffer.len b) in
                      modify_current (set_buffer (Some b')) ;;
                      if negb (Buffer.len b' =? 0) then ondata_rec (S depth) None else skip
                  end) st1).
  { intros st1 B HB Hlen. unfold bind at 1 5.
    destruct (parse st1) as [[[ | ] | e] s1] eqn:P; cbn [negb]; try reflexivity.
    destruct (parse_true _ P) as [Eb Hn]. rewrite HB in Eb.
    assert (H1 : holds_frame B (clength (current (self s1))) s1)
      by (right; split; [ exact Eb | reflexivity ]).
    pose proof (@holds_frame_dispatch C B (clength (current (self s1))) s1 H1) as H2.
    unfold bind at 1 4.
    destruct (ondata_dispatch s1) as [[[] | e] s2]; try reflexivity.
    cbn [snd] in H2. remember (clength (current (self s1))) as n eqn:En.
    clear P H1 Eb HB En s1.
    unfold holds_frame in H2. open_state s2.
    destruct H2 as [H2 | [H2 Hc]]; subst; msimpl.
    - reflexivity.
    - match goal with
      | |- context [ Buffer.len ?x =? 0 ] => destruct (Buffer.len x =? 0) eqn:E
      end; msimpl; [ reflexivity | ].
      apply IH. unfold buffered. msimpl.
      apply Z.eqb_neq in E. pose proof (slice_shorter B Hn E). lia. }
  apply bind_ext. intros ws s0 E0. injection E0 as <- <-.
  destruct (isClosed (self st)); [ reflexivity | ].
  apply bind_ext. intros [] st1 E1.
  destruct (buffer (current (self st1))) as [ B | ] eqn:HB.
  - apply (Hstep st1 B HB).
    destruct chunk as [ d | ]; injection E1 as <-.
    + cbn in HB. injection HB as <-.
      destruct (buffer (current (self st))) as [ b0 | ];
        unfold Buffer.concat; rewrite ?length_app; exact Hd.
    + rewrite HB in Hd. exact Hd.
  - apply bind_ext. intros parsed s1 P.
    rewrite (parse_no_buffer _ HB) in P. injection P as <- <-. reflexivity.
Qed.

(** [$ondata] at the depth it is given and at any greater depth. *)
Lemma ondata_depth {C : Collaborators} chunk st extra :
  ondata chunk st
  = ondata_rec (S (buffered (Some chunk) st) + extra) (Some chunk) st.
Proof.
  unfold ondata.
  assert (E : (match buffer (current (self st)) with
               | Some b => List.length b
               | None => O
               end + List.length chunk)%nat = buffered (Some chunk) st).
  { unfold buffered. destruct (buffer (current (self st))); reflexivity. }
  rewrite E. induction extra as [ | extra IH ].
  - rewrite Nat.add_0_r. reflexivity.
  - rewrite IH. rewrite Nat.add_succ_r. apply ondata_rec_depth. lia.
Qed.

(** ** One frame in one chunk *)

Lemma slice_end (b : bytes) :
  Buffer.len (Buffer.slice b (Buffer.len b) (Buffer.len b)) = 0.
Proof.
  unfold Buffer.slice, Buffer.clamp, Buffer.len.
  destruct (Z.of_nat (List.length b) <? 0) eqn:E; [ apply Z.ltb_lt in E; lia | ].
  rewrite Z.min_id, Z.sub_diag. reflexivity.
Qed.

(** The payload that [$parse] copies out of a complete frame: the bytes
    of the accumulator from the header index to the size of the frame. *)
Lemma frame_payload_bytes {C : Collaborators} (b : bytes) :
  0 <= getMessageLength b ->
  frame_size b <= Buffer.len b ->
  frame_payload b
  = firstn (Z.to_nat (getMessageLength b)) (skipn (Z.to_nat (frame_index b)) b).
Proof.
  intros Hpay Hfull. unfold frame_payload, Buffer.copy, Buffer.alloc, frame_size in *.
  cbn [Z.to_nat skipn firstn app]. rewrite repeat_length.
  replace (frame_index b + getMessageLength b - frame_index b)
    with (getMessageLength b) by lia.
  assert (Hi : 2 <= frame_index b).
  { unfold frame_index.
    repeat match goal with |- context [ if ?c then _ else _ ] => destruct c end; lia. }
  set (p := firstn (Z.to_nat (getMessageLength b))
              (skipn (Z.to_nat (frame_index b)) b)).
  assert (Hl : List.length p = Z.to_nat (getMessageLength b)).
  { subst p. rewrite length_firstn, length_skipn. unfold Buffer.len in Hfull. lia. }
  rewrite firstn_all2 by lia.
  rewrite Hl, skipn_all2 by (rewrite repeat_length; lia).
  apply app_nil_r.
Qed.

Section StableDecode.

Context {C : Collaborators}.
Variables (b : bytes) (n : Z).

Lemma holds_frame_decode : stable (holds_frame b n) decode.
Proof.
  apply stable_decode;
    auto using holds_frame_modify, holds_frame_tell, holds_frame_queues.
Qed.

End StableDecode.

(** A data frame that arrives whole in one chunk, on a connection without
    compression and with nothing buffered: its payload is delivered as it
    is on the wire, whether or not the frame carries a mask. *)
Lemma ondata_data_frame {C : Collaborators} (st : St) (b : bytes) :
  isClosed (self st) = false ->
  inflate (self st) = false ->
  buffer (current (self st)) = None ->
  body (current (self st)) = None ->
  2 < Buffer.len b ->
  0 < getMessageLength b ->
  over_limit (self st) (frame_size b) = false ->
  Buffer.len b = frame_size b ->
  frame_opcode b = 0x01 \/ frame_opcode b = 0x02 ->
  frame_final b = true ->
  emitted "message" (trace (exec (ondata b) st))
  = emitted "message" (trace st)
    ++ match events (self st) "message" with
       | [] => []
       | _ => decoded (self st) (frame_payload b)
       end.
Proof.
  intros Hc Hi Hb Hbody Hlen Hpay Hlim Hsize Hop Hfin.
  unfold over_limit, frame_payload, frame_size, frame_index, frame_masked,
    frame_opcode, frame_final in *.
  open_state st. subst.
  apply Z.leb_gt in Hlen. apply Z.leb_gt in Hpay.
  assert (Hfull : (Buffer.len b <?
                   (if Z.land (Buffer.get b 1) 127 =? 126 then 4
                    else if Z.land (Buffer.get b 1) 127 =? 127 then 10 else 2)
                   + (if Z.shiftr (Z.land (Buffer.get b 1) 254) 7 =? 1 then 4 else 0)
                   + getMessageLength b) = false)
    by (apply Z.ltb_ge; rewrite <- Hsize; apply Z.le_refl).
  unfold ondata. cbn [ondata_rec]. msimpl.
  unfold parse. msimpl. rewrite Hlen. msimpl. rewrite Hpay. msimpl.
  rewrite Hlim. msimpl. rewrite Hfull. msimpl.
  unfold ondata_dispatch, ondata_message.
  assert (Hnc : negb (Z.land (Buffer.get b 0) 15 =? 9)
                && negb (Z.land (Buffer.get b 0) 15 =? 10) = true)
    by (destruct Hop as [-> | ->]; reflexivity).
  rewrite Hnc. msimpl. rewrite Hfin.
  destruct (Z.shiftr (Z.land (Buffer.get b 1) 254) 7 =? 1) eqn:Hmask; msimpl;
    destruct Hop as [Hop | Hop]; rewrite Hop; msimpl;
    match goal with
    | |- context [ decode ?s ] =>
        pose proof (@decode_delivers C s _ eq_refl) as Hd;
        assert (Hf : holds_frame b (Buffer.len b) s)
          by (right; split; [ reflexivity | cbn [clength current self]; symmetry; exact Hsize ]);
        apply holds_frame_decode in Hf;
        unfold exec in Hd; destruct (decode s) as [[[] | e] s2]
    end;
    cbn [snd] in Hf; unfold holds_frame in Hf; open_state s2;
    msimpl_in Hd; unfold decoded; msimpl; rewrite ?Hmask in *;
    (destruct Hf as [Hf | [Hf Hn]]; subst; msimpl; rewrite ?slice_end; msimpl;
     exact Hd).
Qed.

(** What the mask does to a byte: [Buffer.xor_mask key p] holds
    [p[i] xor key[i mod 4]] at every index [i]. *)
Lemma xor_from_nth (key : bytes) : forall (p : bytes) (k : Z) (i : nat),
  0 <= k ->
  (i < List.length p)%nat ->
  nth i (Buffer.xor_from k key p) 0
  = Z.lxor (nth i p 0) (Buffer.get key ((k + Z.of_nat i) mod 4)).
Proof.
  induction p as [ | x p IH ]; intros k i Hk Hi; cbn [List.length] in Hi; [ lia | ].
  destruct i as [ | i ]; cbn [Buffer.xor_from nth].
  - rewrite Z.add_0_r. reflexivity.
  - rewrite IH by lia. do 2 f_equal. f_equal. lia.
Qed.

Lemma xor_mask_nth (key p : bytes) (i : nat) :
  (i < List.length p)%nat ->
  nth i (Buffer.xor_mask key p) 0
  = Z.lxor (nth i p 0) (Buffer.get key (Z.of_nat i mod 4)).
Proof. intros Hi. unfold Buffer.xor_mask. rewrite xor_from_nth by lia. reflexivity. Qed.

(** A ping with a payload that arrives whole, with nothing buffered, is
    answered with the pong [PONG]; the liveness flag is set and the
    accumulator is dropped, together with whatever followed the ping in
    the chunk. *)
Lemma ondata_ping {C : Collaborators} (st : St) (b : bytes) :
  isClosed (self st) = false ->
  socket (self st) = true ->
  buffer (current (self st)) = None ->
  2 < Buffer.len b ->
  0 < getMessageLength b ->
  over_limit (self st) (frame_size b) = false ->
  frame_size b <= Buffer.len b ->
  frame_opcode b = 0x09 ->
  let st' := exec (ondata b) st in
  trace st'
  = trace st
    ++ [SocketWrite (getWebSocketFrame (JNum 0) (JStr "PONG") 0x0A false
                       (masking (options (self st))))]
  /\ ping_flag (self st') = JBool true
  /\ buffer (current (self st')) = None.
Proof.
  intros Hc Hs Hb Hlen Hpay Hlim Hsize Hop.
  unfold over_limit, frame_size, frame_index, frame_masked, frame_opcode in *.
  open_state st. subst.
  apply Z.leb_gt in Hlen. apply Z.leb_gt in Hpay. apply Z.ltb_ge in Hsize.
  unfold ondata. cbn [ondata_rec]. msimpl.
  unfold parse. msimpl. rewrite Hlen. msimpl. rewrite Hpay. msimpl.
  rewrite Hlim. msimpl. rewrite Hsize. msimpl. rewrite Hop. msimpl.
  unfold ondata_dispatch, socket_write. msimpl. rewrite ?Hop. msimpl.
  repeat split; reflexivity.
Qed.


(** ** C1: masked frames without compression *)

(** C1 (the code departs from the claim). A final binary frame with the
    MASK bit set, key [0F 0F 0F 0F] and wire payload [4E] is received by a
    client without compression. The claim asks for the delivery of
    [4E xor 0F = 41]; the [message] event carries the wire byte [4E].
    [$parse] copies the payload into [current.data] as it is and
    [$ondata] appends it to the body; [$readbody], which applies
    [current.mask] (it returns [41] here), is never called. With
    compression, [$parse] does apply the mask. [ondata_data_frame] shows
    the delivery of the wire payload for every such frame, and
    [xor_mask_nth] what the mask would have done. *)
Theorem masked_frame_delivered_masked :
  emitted "message"
    (trace (step (opened binary_options false) (SocketData masked_frame)))
  = [[JBuf [0x4E]]]
  /\ Buffer.xor_mask [0x0F; 0x0F; 0x0F; 0x0F] [0x4E] = [0x41]
  /\ fst (readbody (exec parse
            (exec (modify_current (set_buffer (Some masked_frame)))
                  (opened binary_options false))))
     = Ok [0x41].
Proof. vm_compute. repeat split. Qed.

(** ** C2: splitting the stream *)

(** C2 (the code departs from the claim). The stream [89 01 41 82 01 42]
    is a ping followed by a binary frame. Fed in one chunk it delivers no
    message: the ping case sets [current.buffer = null] and so drops the
    frame behind the ping, where the text, binary and close cases cut the
    accumulator at [current.length] (see [ondata_ping]). Fed as [89 01 41]
    and [82 01 42] it delivers the message [42]. *)
Theorem split_after_ping_changes_delivery :
  emitted "message"
    (trace (run [SocketData (ping_frame ++ data_frame)]
                (opened binary_options false)))
  = []
  /\ emitted "message"
       (trace (run [SocketData (firstn 3 (ping_frame ++ data_frame));
                    SocketData (skipn 3 (ping_frame ++ data_frame))]
                   (opened binary_options false)))
     = [[JBuf [0x42]]].
Proof. vm_compute. split; reflexivity. Qed.

(** ** C3: the size limit and frames without a payload *)

(** C3 (the code departs from the claim). [$parse] returns at
    [current.buffer.length <= 2] and at [length <= 0] before it compares
    the size of the frame with [options.length], so a frame without a
    payload never reaches the size test. The empty masked text frame
    [81 80 01 02 03 04] has the size 6; with [options.length = 5] the
    claim asks for a close with code 1009, and the client writes nothing
    and stays open, the six bytes left in the accumulator. The empty text
    frame [81 00] has the size 2; with [options.length = 2] the claim asks
    for the frame to be accepted and processed, and it stays in the
    accumulator, also when more frames follow. The frame
    [81 04 41 42 43 44] of the same size 6 with a payload is closed with
    code 1009 at the limit 5 and delivered at the limit 6
    ([frame_size_limit] shows the test for every frame with a payload).
    The two returns are those that keep the empty ping from its pong. *)
Theorem empty_frame_escapes_size_limit :
  let empty_masked := [0x81; 0x80; 0x01; 0x02; 0x03; 0x04] in
  let empty := [0x81; 0x00] in
  let with_payload := [0x81; 0x04; 0x41; 0x42; 0x43; 0x44] in
  let over := step (opened (limited_options 5) false) (SocketData empty_masked) in
  let exact := step (opened (limited_options 2) false) (SocketData empty) in
  let stalled := step exact (SocketData empty) in
  (frame_size empty_masked = 6
   /\ written (trace over) = []
   /\ isClosed (self over) = false
   /\ buffer (current (self over)) = Some empty_masked)
  /\ (frame_size empty = 2
      /\ emitted "message" (trace exact) = []
      /\ buffer (current (self exact)) = Some empty
      /\ emitted "message" (trace stalled) = []
      /\ buffer (current (self stalled)) = Some (empty ++ empty))
  /\ (frame_size with_payload = 6
      /\ written (trace (step (opened (limited_options 5) false)
                               (SocketData with_payload)))
         = [Frame (JNum 1009) (JStr "Frame is too large") 0x08 false false]
      /\ emitted "message"
           (trace (step (opened (limited_options 6) false)
                        (SocketData with_payload)))
         = [[JBuf [0x41; 0x42; 0x43; 0x44]]]).
Proof. vm_compute. repeat split. Qed.

(** ** C7: pings *)

(** C7 (the code departs from the claim). On the empty ping [89 00] the
    parser returns at [current.buffer.length <= 2]; with more bytes behind
    it, it returns at [length <= 0]. No pong is written, the liveness flag
    is not set, and the two bytes stay at the head of the accumulator, so
    nothing received later is parsed either. A ping with a payload is
    answered ([ondata_ping]). *)
Theorem empty_ping_not_answered :
  let st1 := step (opened binary_options false) (SocketData empty_ping) in
  let st2 := step st1 (SocketData data_frame) in
  written (trace st1) = []
  /\ ping_flag (self st1) = JUndefined
  /\ written (trace st2) = []
  /\ ping_flag (self st2) = JUndefined
  /\ emitted "message" (trace st2) = []
  /\ buffer (current (self st2)) = Some (empty_ping ++ data_frame).
Proof. vm_compute. repeat split. Qed.

(** ** C8: ping() *)

(** C8 (the code departs from the claim). [ping()] names [self] without
    declaring it. On every connection that is not closed the call throws:
    with a socket, a [ReferenceError] while it evaluates
    [self.options.masking], before [socket.write] is entered; without a
    socket (before the upgrade), a [TypeError] at [this.socket.write]. No
    frame is written and [$ping] keeps its value. Only on a closed
    connection does [ping()] return, having done nothing. *)
Theorem ping_throws_on_open_connection :
  (forall (C : Collaborators) (st : St),
     ping st
     = (if isClosed (self st) then Ok tt
        else if socket (self st) then Throw (ReferenceError "self")
        else Throw (TypeError "socket"),
        st))
  /\ isClosed (self (opened text_options false)) = false
  /\ socket (self (opened text_options false)) = true
  /\ fst (ping (opened text_options false)) = Throw (ReferenceError "self")
  /\ written (trace (exec ping (opened text_options false))) = []
  /\ ping_flag (self (exec ping (opened text_options false)))
     = ping_flag (self (opened text_options false)).
Proof.
  split.
  - intros C st. open_state st. unfold ping, ping_self_options_masking.
    destruct isClosed0, socket0; reflexivity.
  - vm_compute. repeat split.
Qed.

(** ** C9: opcode of deflated frames *)

(** C9 (the code departs from the claim). [sendDeflate] chooses the opcode
    by [self.type === 1], and the client has no [type] property: whatever
    the options and whatever happened since the constructor, the opcode of
    a deflated frame is [0x1]. With [options.type = 'binary'] and deflate
    negotiated, [send] of a buffer ends in a frame of opcode [0x1] with
    RSV1 set; without deflate the same call writes opcode [0x2]. *)
Theorem binary_deflated_frame_has_text_opcode :
  let deflated :=
    run [CallSend (JBuf [0x01; 0x02; 0x03]) false JUndefined;
         DeflateData [0x62; 0x64; 0x62; 0x06; 0x00; 0x00; 0x00; 0xFF; 0xFF];
         DeflateFlushed]
        (opened binary_options true) in
  let plain :=
    run [CallSend (JBuf [0x01; 0x02; 0x03]) false JUndefined]
        (opened binary_options false) in
  (forall (C : Collaborators) (o : options_t) (evs : list event),
     deflate_opcode (self (run evs (start (with_options o create)))) = 0x01)
  /\ istext (self (opened binary_options true)) = false
  /\ map f_type (written (trace deflated)) = [0x01]
  /\ map rsv1 (written (trace deflated)) = [true]
  /\ map f_type (written (trace plain)) = [0x02].
Proof.
  split.
  - intros C o evs.
    assert (H : untyped (run evs (start (with_options o create)))).
    { apply untyped_run. reflexivity. }
    unfold untyped in H. unfold deflate_opcode. rewrite H. reflexivity.
  - vm_compute. repeat split.
Qed.

(** * Further properties of the client *)

(** [open_client st]: the state [st] as the record of its fields, each
    named after its projection. *)
Ltac open_client st :=
  let ws := fresh "ws" in
  let cur := fresh "cur" in
  let opts := fresh "opts" in
  let trace0 := fresh "trace0" in
  let inflate_flushes0 := fresh "inflate_flushes0" in
  let deflate_flushes0 := fresh "deflate_flushes0" in
  let timers0 := fresh "timers0" in
  destruct st as [ws trace0 inflate_flushes0 deflate_flushes0 timers0];
  let events0 := fresh "events0" in
  let reconnect0 := fresh "reconnect0" in
  let closed0 := fresh "closed0" in
  let url0 := fresh "url0" in
  let protocol0 := fresh "protocol0" in
  let origin0 := fresh "origin0" in
  let typebuffer0 := fresh "typebuffer0" in
  let istext0 := fresh "istext0" in
  let req0 := fresh "req0" in
  let socket0 := fresh "socket0" in
  let inflate0 := fresh "inflate0" in
  let inflatepending0 := fresh "inflatepending0" in
  let inflatelock0 := fresh "inflatelock0" in
  let inflatechunks0 := fresh "inflatechunks0" in
  let inflatechunkslength0 := fresh "inflatechunkslength0" in
  let deflate0 := fresh "deflate0" in
  let deflatepending0 := fresh "deflatepending0" in
  let deflatelock0 := fresh "deflatelock0" in
  let deflatechunks0 := fresh "deflatechunks0" in
  let deflatechunkslength0 := fresh "deflatechunkslength0" in
  let isClosed0 := fresh "isClosed0" in
  let _isClosed0 := fresh "_isClosed0" in
  let closemessage0 := fresh "closemessage0" in
  let closecode0 := fresh "closecode0" in
  let ping_flag0 := fresh "ping_flag0" in
  let self_type0 := fresh "self_type0" in
  destruct ws as [cur events0 reconnect0 closed0 opts url0 protocol0 origin0
                  typebuffer0 istext0 req0 socket0 inflate0 inflatepending0
                  inflatelock0 inflatechunks0 inflatechunkslength0 deflate0
                  deflatepending0 deflatelock0 deflatechunks0
                  deflatechunkslength0 isClosed0 _isClosed0 closemessage0
                  closecode0 ping_flag0 self_type0];
  let buffer0 := fresh "buffer0" in
  let type0 := fresh "type0" in
  let type20 := fresh "type20" in
  let final0 := fresh "final0" in
  let isMask0 := fresh "isMask0" in
  let mask0 := fresh "mask0" in
  let data0 := fresh "data0" in
  let clength0 := fresh "clength0" in
  let body0 := fresh "body0" in
  destruct cur as [buffer0 type0 type20 final0 isMask0 mask0 data0 clength0 body0];
  let o_type0 := fresh "o_type0" in
  let masking0 := fresh "masking0" in
  let compress0 := fresh "compress0" in
  let o_reconnect0 := fresh "o_reconnect0" in
  let encodedecode0 := fresh "encodedecode0" in
  let encrypt0 := fresh "encrypt0" in
  let o_length0 := fresh "o_length0" in
  let reconnectserver0 := fresh "reconnectserver0" in
  destruct opts as [o_type0 masking0 compress0 o_reconnect0 encodedecode0
                    encrypt0 o_length0 reconnectserver0];
  cbn
    [
       buffer type type2 final isMask mask data clength body o_type masking
       compress o_reconnect encodedecode encrypt o_length reconnectserver
       current events reconnect closed options url protocol origin
       typebuffer istext req socket inflate inflatepending inflatelock
       inflatechunks inflatechunkslength deflate deflatepending deflatelock
       deflatechunks deflatechunkslength isClosed _isClosed closemessage
       closecode ping_flag self_type self trace inflate_flushes
       deflate_flushes timers ] in *.

(** Case analysis on whatever a computation branches on, innermost
    first, with the monad unfolded after each case. *)
Ltac no_match x :=
  lazymatch x with
  | context [ match _ with _ => _ end ] => fail
  | _ => idtac
  end.

Ltac crunch :=
  msimpl;
  repeat (match goal with
          | H : ?x = _ |- context [ match ?x with _ => _ end ] => rewrite H
          | |- context [ match negb ?x with _ => _ end ] =>
              is_var x; destruct x
          | |- context [ match ?x with _ => _ end ] =>
              no_match x; destruct x eqn:?
          end; msimpl).


(** [open_st st]: the state as its fields, the client as its fields. *)
Ltac open_st st :=
  let ws := fresh "ws" in
  let a := fresh "tr" in
  let b := fresh "ifl" in
  let c := fresh "dfl" in
  let d := fresh "tm" in
  destruct st as [ws a b c d];
  cbn [self trace inflate_flushes deflate_flushes timers] in *.


(** ** [buffer_concat] *)

Lemma firstn_repeat_min A (x : A) (n m : nat) :
  firstn n (repeat x m) = repeat x (Nat.min n m).
Proof.
  revert m. induction n as [ | n IH ]; intros [ | m ]; cbn; try reflexivity.
  rewrite IH. reflexivity.
Qed.

Lemma skipn_repeat_sub A (x : A) (n m : nat) :
  skipn n (repeat x m) = repeat x (m - n).
Proof.
  revert m. induction n as [ | n IH ]; intros [ | m ]; cbn; try reflexivity.
  apply IH.
Qed.

(** One copy of the loop of [buffer_concat]: the target is what was
    allocated, cut to its [n] bytes, with [front] already copied. *)
Lemma copy_into_allocated (c front : bytes) (n : nat) :
  Buffer.copy c (firstn n (front ++ repeat 0 n)) (Buffer.len front) 0 (Buffer.len c)
  = firstn n ((front ++ c) ++ repeat 0 n).
Proof.
  unfold Buffer.copy, Buffer.len.
  rewrite Z.sub_0_r, !Nat2Z.id. cbn [Z.to_nat skipn].
  rewrite firstn_all.
  destruct (Nat.le_gt_cases (List.length front) n) as [Hk | Hk].
  - rewrite firstn_firstn, Nat.min_l by exact Hk.
    rewrite firstn_app, firstn_all, Nat.sub_diag. cbn [firstn]. rewrite app_nil_r.
    rewrite skipn_firstn_comm, skipn_app, skipn_all, Nat.sub_diag.
    cbn [skipn app]. rewrite firstn_repeat_min, repeat_length.
    rewrite (Nat.min_l (n - List.length front) n) by lia.
    rewrite length_firstn, skipn_repeat_sub.
    rewrite <- app_assoc, (firstn_app n front), (firstn_all2 front) by exact Hk.
    f_equal. rewrite firstn_app. f_equal.
    rewrite firstn_repeat_min. f_equal. lia.
  - assert (E : firstn n (front ++ repeat 0 n) = firstn n front).
    { rewrite firstn_app.
      replace (n - List.length front)%nat with 0%nat by lia.
      cbn [firstn]. apply app_nil_r. }
    rewrite E, firstn_firstn, Nat.min_r by lia.
    rewrite skipn_all2 by (rewrite length_firstn; lia).
    cbn [List.length firstn skipn app]. rewrite app_nil_r.
    rewrite <- app_assoc, firstn_app.
    replace (n - List.length front)%nat with 0%nat by lia.
    cbn [firstn]. rewrite app_nil_r. reflexivity.
Qed.

Lemma buffer_concat_from_allocated (n : nat) chunks : forall front,
  buffer_concat_from chunks (firstn n (front ++ repeat 0 n)) (Buffer.len front)
  = firstn n (front ++ List.concat chunks ++ repeat 0 n).
Proof.
  induction chunks as [ | c cs IH ]; intros front; cbn [buffer_concat_from List.concat].
  - reflexivity.
  - rewrite copy_into_allocated.
    replace (Buffer.len front + Buffer.len c) with (Buffer.len (front ++ c))
      by (unfold Buffer.len; rewrite length_app; lia).
    rewrite IH, <- !app_assoc. reflexivity.
Qed.

(** X1. [buffer_concat(buffers, length)] returns exactly [length] bytes:
    the bytes of the buffers one after the other, cut at [length] when the
    buffers hold more and followed by zeros when they hold less. With the
    length that [websocket_inflate] and [websocket_deflate] add up it is
    the concatenation of the chunks. *)
Theorem buffer_concat_bytes (chunks : list bytes) (n : Z) :
  0 <= n ->
  buffer_concat chunks n
  = firstn (Z.to_nat n) (List.concat chunks ++ Buffer.alloc n)
  /\ Buffer.len (buffer_concat chunks n) = n
  /\ (n = chunks_total chunks -> buffer_concat chunks n = List.concat chunks).
Proof.
  intros Hn.
  assert (E : buffer_concat chunks n
              = firstn (Z.to_nat n) (List.concat chunks ++ Buffer.alloc n)).
  { unfold buffer_concat, Buffer.alloc.
    pose proof (buffer_concat_from_allocated (Z.to_nat n) chunks []) as H.
    cbn [app] in H. rewrite firstn_repeat_min, Nat.min_id in H. exact H. }
  split; [ exact E | split ].
  - rewrite E. unfold Buffer.len, Buffer.alloc.
    rewrite length_firstn, length_app, repeat_length. lia.
  - intros ->. apply buffer_concat_total.
Qed.

(** X1 on three chunks of five bytes in all: with the length 5 the
    concatenation, with 3 its first three bytes, with 7 two zeros more. *)
Lemma buffer_concat_bytes_witness :
  buffer_concat [[1; 2]; []; [3; 4; 5]] 5 = [1; 2; 3; 4; 5]
  /\ buffer_concat [[1; 2]; []; [3; 4; 5]] 3 = [1; 2; 3]
  /\ buffer_concat [[1; 2]; []; [3; 4; 5]] 7 = [1; 2; 3; 4; 5; 0; 0].
Proof.
  destruct (@buffer_concat_bytes [[1; 2]; []; [3; 4; 5]] 5 ltac:(lia)) as (_ & _ & H5).
  destruct (@buffer_concat_bytes [[1; 2]; []; [3; 4; 5]] 3 ltac:(lia)) as (H3 & _).
  destruct (@buffer_concat_bytes [[1; 2]; []; [3; 4; 5]] 7 ltac:(lia)) as (H7 & _).
  split; [ exact (H5 eq_refl) | split; [ exact H3 | exact H7 ] ].
Defined.

(** ** A closed client *)

Lemma send_closed {C : Collaborators} st message raw replacer :
  isClosed (self st) || closed (self st) = true ->
  send message raw replacer st = (Ok false, st).
Proof.
  intros H. open_client st. unfold send. msimpl. cbn in H. rewrite H. reflexivity.
Qed.

Lemma ondata_closed {C : Collaborators} st chunk :
  isClosed (self st) = true -> ondata chunk st = (Ok tt, st).
Proof.
  intros H. open_client st. subst. unfold ondata. cbn [ondata_rec]. msimpl.
  reflexivity.
Qed.

Lemma inert_run {C : Collaborators} evs : forall st,
  isClosed (self st) = true -> forallb inert_event evs = true -> run evs st = st.
Proof.
  induction evs as [ | ev evs IH ]; intros st Hc He; [ reflexivity | ].
  cbn [forallb] in He. apply andb_prop in He. destruct He as [He Hes].
  cbn [run fold_left].
  assert (E : step st ev = st).
  { destruct ev; try discriminate; unfold step, exec; cbn [handle].
    - rewrite ondata_closed by exact Hc. reflexivity.
    - unfold ignore, bind. rewrite send_closed by (rewrite Hc; reflexivity).
      reflexivity. }
  rewrite E. apply IH; assumption.
Qed.

Lemma closing_closes {C : Collaborators} st ev :
  closing ev = true -> isClosed (self (step st ev)) = true.
Proof.
  intros Hev. destruct ev; try discriminate; unfold step; cbn [handle].
  - open_client st. unfold onerror, onclose, emit_if_subscribed, emit. crunch;
      reflexivity.
  - open_client st. unfold close, socket_end. crunch; reflexivity.
Qed.

(** X2. Once [isClosed] is set the client neither reads nor sends:
    [$ondata] returns before it touches the accumulator and [send] returns
    [false], so a run of socket data and of calls of [send] leaves the
    client, its queues and the trace as they are. [close] and the socket's
    ['error'] listener set the flag in every state, so this is the state
    of the client from the call of [close] on, before the socket has
    closed. *)
Theorem closed_client_is_inert {C : Collaborators} (st : St) (evs : list event) :
  forallb inert_event evs = true ->
  (isClosed (self st) = true -> run evs st = st)
  /\ (forall ev, closing ev = true -> run (ev :: evs) st = step st ev).
Proof.
  intros He. split.
  - intros Hc. apply inert_run; assumption.
  - intros ev Hev. cbn [run fold_left]. apply inert_run; [ | exact He ].
    apply closing_closes. exact Hev.
Qed.

(** X2 on an open text client: after [close()] a text frame that arrives
    and a call of [send] change nothing; no message is delivered, and the
    only frame written is the close frame. *)
Lemma closed_client_is_inert_witness :
  let evs := [SocketData [0x81; 0x01; 0x41]; CallSend (JStr "late") false JUndefined] in
  forallb inert_event evs = true
  /\ run (CallClose JUndefined JUndefined :: evs) (opened text_options false)
     = step (opened text_options false) (CallClose JUndefined JUndefined)
  /\ emitted "message"
       (trace (run (CallClose JUndefined JUndefined :: evs) (opened text_options false)))
     = []
  /\ written
       (trace (run (CallClose JUndefined JUndefined :: evs) (opened text_options false)))
     = [Frame (JNum 1000) (JStr EmptyString) 0x08 false false].
Proof.
  intros evs.
  pose proof (@closed_client_is_inert plain_collaborators (opened text_options false)
                evs eq_refl) as [_ H].
  specialize (H (CallClose JUndefined JUndefined) eq_refl).
  split; [ reflexivity | ]. split; [ exact H | ].
  rewrite H. split; vm_compute; reflexivity.
Defined.

(** ** [sendcustom] *)

Lemma written_deflate tr b :
  written ((tr ++ [DeflateWrite b]) ++ [DeflateFlush]) = written tr.
Proof. rewrite !written_app. cbn. rewrite !app_nil_r. reflexivity. Qed.

(** X3. [sendcustom] hands nothing to the socket, in any state and for any
    arguments. On a closed client it returns [false]. On an open client of
    the text family it throws a [ReferenceError] (it reads [self], which
    is not declared) before anything is encoded or queued. On an open
    client of the binary family without a deflate stream it throws as
    well: a [TypeError] when the message cannot be made a buffer or when
    there is no socket, the [ReferenceError] otherwise. Only a binary
    message on a connection with a deflate stream gets anywhere: it is
    put at the end of the deflate queue and [sendDeflate] is called. *)
Theorem sendcustom_writes_nothing {C : Collaborators}
    (st : St) (type message : jsval) :
  let ws := self st in
  let r := sendcustom type message st in
  written (trace (snd r)) = written (trace st)
  /\ (if isClosed ws || closed ws then r = (Ok false, st)
      else if istext ws then r = (Throw (ReferenceError "self"), st)
      else if deflate ws then
        match (match message with JBuf b => Some b | _ => Buffer_from message end) with
        | Some payload =>
            r = (Ok true,
                 exec sendDeflate
                   (exec (modify (fun w =>
                            set_deflatepending (deflatepending w ++ [payload]) w))
                         st))
        | None => r = (Throw (TypeError "Buffer.from"), st)
        end
      else exists e, r = (Throw e, st)).
Proof.
  intros ws r. subst ws r. open_client st.
  unfold sendcustom, sendcustom_self, buffer_from, sendDeflate, deflate_write,
    deflate_flush, socket_write.
  destruct isClosed0, closed0, istext0; msimpl; try (split; reflexivity).
  destruct deflate0; msimpl.
  - destruct message; msimpl;
      try (destruct (Buffer_from _) as [ p | ]; msimpl);
      try (split; reflexivity);
      destruct deflatelock0; msimpl; try (split; reflexivity);
      match goal with
      | |- context [ match ?q ++ [?x] with _ => _ end ] =>
          destruct (q ++ [x]) eqn:E; msimpl
      end;
      try (split; reflexivity);
      (split; [ apply written_deflate | reflexivity ]).
  - destruct message; msimpl;
      try (destruct (Buffer_from _) as [ p | ]; msimpl);
      destruct socket0; msimpl; (split; [ reflexivity | eexists; reflexivity ]).
Qed.

(** ** The event emitter *)

Lemma persistent_no_once evt : existsb h_once (persistent evt) = false.
Proof.
  unfold persistent. induction evt as [ | h hs IH ]; [ reflexivity | ].
  cbn [filter]. destruct (h_once h) eqn:E; cbn [negb]; [ exact IH | ].
  cbn [existsb]. rewrite E, IH. reflexivity.
Qed.

Lemma persistent_all evt : existsb h_once evt = false -> persistent evt = evt.
Proof.
  unfold persistent. induction evt as [ | h hs IH ]; [ reflexivity | ].
  cbn [existsb filter]. intros H. apply orb_false_elim in H. destruct H as [H1 H2].
  rewrite H1. cbn [negb]. rewrite IH by exact H2. reflexivity.
Qed.

(** What [emit] does to a state. *)
Lemma emit_exec name args st :
  trace (exec (emit name args) st)
  = trace st ++ delivery name args (events (self st) name)
  /\ forall n, events (self (exec (emit name args) st)) n
               = if String.eqb n name then persistent (events (self st) name)
                 else events (self st) n.
Proof.
  open_client st. unfold emit, delivery. msimpl.
  destruct (events0 name) as [ | h hs ] eqn:E; msimpl.
  - split; [ symmetry; apply app_nil_r | ].
    intros n. destruct (String.eqb n name) eqn:En; [ | reflexivity ].
    apply String.eqb_eq in En. subst n. exact E.
  - destruct (existsb h_once (h :: hs)) eqn:Ho; msimpl.
    + split; [ reflexivity | intros n; reflexivity ].
    + split; [ reflexivity | ].
      intros n. destruct (String.eqb n name) eqn:En; [ | reflexivity ].
      apply String.eqb_eq in En. subst n.
      rewrite persistent_all by exact Ho. exact E.
Qed.

(** X4. [emit] calls every subscriber of the event, in the order of the
    subscriptions, and then drops the subscribers marked [$once]: the next
    [emit] of the event calls the others only, and drops nobody. The
    subscribers of the other events stay as they are, and an event
    without subscribers has no effect. *)
Theorem emit_drops_once_handlers (st : St) (name : string) (a1 a2 : list jsval) :
  let evt := events (self st) name in
  let st1 := exec (emit name a1) st in
  let st2 := exec (emit name a2) st1 in
  trace st1 = trace st ++ delivery name a1 evt
  /\ trace st2 = trace st1 ++ delivery name a2 (persistent evt)
  /\ (forall n, events (self st1) n
                = if String.eqb n name then persistent evt else events (self st) n)
  /\ (forall n, events (self st2) n = events (self st1) n)
  /\ existsb h_once (events (self st1) name) = false.
Proof.
  intros evt st1 st2. subst evt st1 st2.
  destruct (emit_exec name a1 st) as [T1 E1].
  destruct (emit_exec name a2 (exec (emit name a1) st)) as [T2 E2].
  assert (En : events (self (exec (emit name a1) st)) name
               = persistent (events (self st) name))
    by (rewrite E1, String.eqb_refl; reflexivity).
  split; [ exact T1 | ]. split; [ rewrite T2, En; reflexivity | ].
  split; [ exact E1 | ]. split.
  - intros n. rewrite E2. destruct (String.eqb n name) eqn:Hn; [ | reflexivity ].
    apply String.eqb_eq in Hn. subst n. rewrite En.
    apply persistent_all, persistent_no_once.
  - rewrite En. apply persistent_no_once.
Qed.

(** [removeListener] and [on] on the subscribers. *)
Lemma removeListener_exec name fn st :
  trace (exec (removeListener name fn) st) = trace st
  /\ forall n, events (self (exec (removeListener name fn) st)) n
               = if String.eqb n name
                 then filter (fun h => negb (Nat.eqb (hid h) (hid fn)))
                        (events (self st) name)
                 else events (self st) n.
Proof.
  open_client st. unfold removeListener. msimpl.
  destruct (events0 name) as [ | h hs ] eqn:E; msimpl.
  - split; [ reflexivity | ].
    intros n. destruct (String.eqb n name) eqn:En; [ | reflexivity ].
    apply String.eqb_eq in En. subst n. exact E.
  - split; [ reflexivity | intros n; reflexivity ].
Qed.

Lemma on_exec name fn st :
  trace (exec (on name fn) st) = trace st
  /\ forall n, events (self (exec (on name fn) st)) n
               = if String.eqb n name then events (self st) n ++ [fn]
                 else events (self st) n.
Proof.
  open_client st. unfold on. msimpl. split; [ reflexivity | intros n; reflexivity ].
Qed.

Lemma filter_other (fn : handler) (evt : list handler) :
  Forall (fun h => hid h <> hid fn) evt ->
  filter (fun h => negb (Nat.eqb (hid h) (hid fn))) evt = evt.
Proof.
  induction 1 as [ | h hs Hh _ IH ]; [ reflexivity | ].
  cbn [filter]. apply Nat.eqb_neq in Hh. rewrite Hh. cbn [negb].
  rewrite IH. reflexivity.
Qed.

(** X5. [removeListener(name, fn)] takes every subscription of the function
    [fn] out of the event [name], however many there are and whatever
    their [$once] mark, and keeps the other subscribers in their order;
    the other events are not touched and nothing is delivered. A later
    [emit] of the event does not call [fn], and [removeListener] undoes
    [on(name, fn)] for a function that was not subscribed to the event
    before. *)
Theorem removeListener_removes_function
    (st : St) (name : string) (fn : handler) (args : list jsval) :
  let st' := exec (removeListener name fn) st in
  let kept := filter (fun h => negb (Nat.eqb (hid h) (hid fn)))
                (events (self st) name) in
  events (self st') name = kept
  /\ Forall (fun h => hid h <> hid fn) kept
  /\ (forall n, String.eqb n name = false -> events (self st') n = events (self st) n)
  /\ trace (exec (emit name args) st') = trace st ++ delivery name args kept
  /\ (Forall (fun h => hid h <> hid fn) (events (self st) name) ->
      forall n,
        events (self (exec (removeListener name fn) (exec (on name fn) st))) n
        = events (self st) n).
Proof.
  intros st' kept. subst st' kept.
  destruct (removeListener_exec name fn st) as [T E].
  assert (En : events (self (exec (removeListener name fn) st)) name
               = filter (fun h => negb (Nat.eqb (hid h) (hid fn)))
                   (events (self st) name))
    by (rewrite E, String.eqb_refl; reflexivity).
  split; [ exact En | ]. split.
  { apply Forall_forall. intros h Hh. apply filter_In in Hh. destruct Hh as [_ Hh].
    apply negb_true_iff, Nat.eqb_neq in Hh. exact Hh. }
  split; [ intros n Hn; rewrite E, Hn; reflexivity | ]. split.
  { destruct (emit_exec name args (exec (removeListener name fn) st)) as [T' _].
    rewrite T', T, En. reflexivity. }
  intros Hfresh n.
  destruct (removeListener_exec name fn (exec (on name fn) st)) as [_ E'].
  destruct (on_exec name fn st) as [_ Eo].
  rewrite E', !Eo, String.eqb_refl.
  destruct (String.eqb n name) eqn:Hn; [ | reflexivity ].
  apply String.eqb_eq in Hn. subst n.
  rewrite filter_app, filter_other by exact Hfresh.
  cbn [filter]. rewrite Nat.eqb_refl. cbn [negb]. apply app_nil_r.
Qed.

(** X5 for three subscriptions to [message], the first and the last of
    them of the function 7: [removeListener] leaves the one of the
    function 6, and a function 9 subscribed and removed again leaves the
    three. *)
Lemma removeListener_removes_function_witness :
  let st := exec (on "message" (Handler 7 false) ;;
                  once "message" (Handler 6 false) ;;
                  on "message" (Handler 7 false)) (start create) in
  events (self (exec (removeListener "message" (Handler 7 false)) st)) "message"
  = [Handler 6 true]
  /\ (Forall (fun h => hid h <> 9%nat) (events (self st) "message")
      /\ events (self (exec (removeListener "message" (Handler 9 false))
                         (exec (on "message" (Handler 9 false)) st))) "message"
         = [Handler 7 false; Handler 6 true; Handler 7 false]).
Proof.
  intros st.
  destruct (@removeListener_removes_function st "message" (Handler 7 false) [])
    as (H1 & _).
  destruct (@removeListener_removes_function st "message" (Handler 9 false) [])
    as (_ & _ & _ & _ & H2).
  assert (Hf : Forall (fun h => hid h <> 9%nat) (events (self st) "message"))
    by (repeat constructor; discriminate).
  split; [ exact H1 | ]. split; [ exact Hf | ].
  exact (H2 Hf "message").
Defined.

(** ** A refused handshake, and [free] *)

(** X6. [free()] destroys the socket and aborts the request, each if the
    client holds one, and forgets both; the flags [closed] and [isClosed],
    the subscribers and the queues are not touched. It can be called
    again: the second call finds nothing to release and changes
    nothing. *)
Theorem free_releases (st : St) :
  let ws := self st in
  let st' := exec free st in
  socket (self st') = false
  /\ req (self st') = false
  /\ trace st' = trace st ++ (if socket ws then [SocketDestroy] else [])
                          ++ (if req ws then [ReqAbort] else [])
  /\ self st' = set_req false (set_socket false ws)
  /\ free st' = (Ok tt, st').
Proof.
  intros ws st'. subst ws st'. open_client st. unfold free.
  destruct socket0, req0; msimpl; cbn [app]; rewrite <- ?app_assoc, ?app_nil_r;
    repeat split; reflexivity.
Qed.


(** ** The parser's state across a reconnection *)

Lemma current_step {C : Collaborators} st ev :
  reads_frames ev = false -> current (self (step st ev)) = current (self st).
Proof.
  intros Hev. destruct ev; try discriminate; unfold step; cbn [handle];
    open_client st.
  - unfold onerror, onclose, emit_if_subscribed, emit. crunch; reflexivity.
  - unfold websocket_close, onclose, emit_if_subscribed, emit. crunch; reflexivity.
  - destruct timers0; [ reflexivity | ].
    unfold reconnect_timer, connect. crunch; reflexivity.
  - unfold on_upgrade, free, emit_if_subscribed, emit. crunch; reflexivity.
  - unfold websocket_inflate. crunch; reflexivity.
  - unfold websocket_deflate. crunch; reflexivity.
  - destruct deflate_flushes0; [ reflexivity | ].
    unfold sendDeflate_flushed, sendDeflate, deflate_write, deflate_flush,
      socket_write.
    crunch; reflexivity.
  - unfold connect. crunch; reflexivity.
  - unfold close, socket_end. crunch; reflexivity.
  - unfold ignore, send, buffer_from, sendDeflate, deflate_write, deflate_flush,
      socket_write.
    crunch; reflexivity.
  - unfold ping, ping_self_options_masking. crunch; reflexivity.
Qed.

(** X8. Nothing but the arrival of data (from the socket, or inflated
    from the inflate stream) touches [this.current]: the accumulator, the
    header fields of the last frame and the body of the message in
    progress. In particular the closing of the socket, the reconnect
    timer, [connect] and the next upgrade do not reset it, so that the
    bytes of an unfinished frame and the fragments of an unfinished
    message are still there when the next connection delivers its first
    bytes. *)
Theorem current_survives_reconnect {C : Collaborators} (evs : list event) (st : St) :
  existsb reads_frames evs = false ->
  current (self (run evs st)) = current (self st).
Proof.
  revert st. induction evs as [ | ev evs IH ]; intros st H; [ reflexivity | ].
  cbn [existsb] in H. apply orb_false_elim in H. destruct H as [Hev Hevs].
  cbn [run fold_left]. change (fold_left step evs (step st ev)) with (run evs (step st ev)).
  rewrite IH by exact Hevs. apply current_step. exact Hev.
Qed.

(** X8 on an open client that holds the first two bytes [81 05] of a text
    frame when its socket closes: after the timer and the upgrade of the
    next connection the two bytes are still in the accumulator. *)
Lemma current_survives_reconnect_witness :
  let st := step (opened text_options false) (SocketData [0x81; 0x05]) in
  let evs := [SocketClosed; ReconnectTimer; Upgrade true false] in
  existsb reads_frames evs = false
  /\ buffer (current (self (run evs st))) = Some [0x81; 0x05]
  /\ isClosed (self (run evs st)) = false
  /\ closed (self (run evs st)) = false
  /\ reconnect (self (run evs st)) = 1.
Proof.
  intros st evs.
  pose proof (@current_survives_reconnect plain_collaborators evs st eq_refl) as H.
  split; [ reflexivity | ]. split; [ rewrite H; vm_compute; reflexivity | ].
  repeat split; vm_compute; reflexivity.
Defined.

(** ** Data frames *)

(** The hypotheses on a frame, as the tests of [$parse]. *)
Ltac frame_tests H :=
  let Hlen := fresh "Hlen" in
  let Hpay := fresh "Hpay" in
  let Hlim := fresh "Hlim" in
  let Hfull := fresh "Hfull" in
  destruct H as (Hlen & Hpay & Hlim & Hfull);
  apply Z.leb_gt in Hlen; apply Z.leb_gt in Hpay; apply Z.ltb_ge in Hfull;
  unfold over_limit, frame_size, frame_index, frame_masked in Hlim, Hfull;
  cbn [options o_length] in Hlim.

Ltac parse_frame Hlen Hpay Hlim Hfull :=
  unfold parse; msimpl; rewrite Hlen; msimpl; rewrite Hpay; msimpl;
  rewrite Hlim; msimpl; rewrite Hfull; msimpl.





(** ** Messages in several frames *)










(** ** The buffer mode *)




(** ** Control frames *)

(** X11. A close frame from the peer (opcode 8, with a payload), whole in
    the accumulator once [chunk] is added: the client records the status
    code from the bytes 2 and 3 of the accumulator and the reason from
    everything after its first four bytes (URI-decoded when
    [options.encodedecode] is set), and answers by [close()]: one close
    frame with the code 1000 and no reason goes out through [socket.end],
    [isClosed] is set and, as for every [close] whose message is not
    [true], [options.reconnect] is set to 0, so that the client does not
    reconnect after a close by the peer. No [close] event is delivered
    yet; that is left to the closing of the socket. *)
Theorem close_frame_received {C : Collaborators} (st : St) (chunk b : bytes) :
  isClosed (self st) = false ->
  socket (self st) = true ->
  buffer (current (self (received chunk st))) = Some b ->
  accepted (self st) b ->
  frame_opcode b = 0x08 ->
  let st' := step st (SocketData chunk) in
  let reason := toString_utf8 (Buffer.slice b 4 (Buffer.len b)) in
  trace st'
  = trace st
    ++ [SocketEnd (getWebSocketFrame (JNum 1000) (JStr EmptyString) 0x08 false
                     (masking (options (self st))))]
  /\ closecode (self st')
     = JNum (Z.lor (Z.shiftl (Buffer.get b 2) 8) (Buffer.get b 3))
  /\ closemessage (self st')
     = JStr (if negb (String.eqb reason EmptyString)
                && encodedecode (options (self st))
             then decodeURIComponent_safe reason
             else reason)
  /\ isClosed (self st') = true
  /\ _isClosed (self st') = _isClosed (self st)
  /\ o_reconnect (options (self st')) = 0.
Proof.
  intros Hc Hs Hb Hacc Hop st' reason. subst st' reason.
  frame_tests Hacc. unfold frame_opcode in Hop.
  open_client st. subst. unfold received in Hb. msimpl_in Hb. injection Hb as Hb.
  unfold step. cbn [handle]. unfold ondata. msimpl.
  generalize (match buffer0 with Some b0 => List.length b0 | None => 0%nat end
              + List.length chunk)%nat.
  intros n. cbn [ondata_rec]. msimpl. rewrite Hb.
  parse_frame Hlen Hpay Hlim Hfull. rewrite Hop.
  cbn [Z.eqb Pos.eqb negb andb]. msimpl.
  set (m := Z.shiftr (Z.land (Buffer.get b 1) 254) 7 =? 1) in *.
  set (fin := Z.shiftr (Z.land (Buffer.get b 0) 128) 7 =? 1) in *.
  unfold ondata_dispatch, ondata_close, close, socket_end.
  destruct m, inflate0, fin; msimpl; rewrite ?Hop; msimpl;
    destruct (negb (String.eqb (toString_utf8 (Buffer.slice b 4 (Buffer.len b)))
                      EmptyString)
              && encodedecode0) eqn:Hdec; msimpl.
  all: match goal with
       | |- context [ if negb (Buffer.len ?x =? 0) then _ else _ ] =>
           destruct (negb (Buffer.len x =? 0))
       end; msimpl; try (destruct n; cbn [ondata_rec]; msimpl);
       repeat split; reflexivity.
Qed.

(** X12. A pong from the peer (opcode 10, with a payload), whole in the
    accumulator once [chunk] is added: the liveness flag [$ping] is set
    and nothing is written or delivered. The accumulator is dropped as a
    whole, with the bytes that followed the pong in it, and everything
    else of the client stays as it is but the header fields of
    [this.current] ([type], [final], [isMask], [length], and [type2] when
    the pong is not marked final). *)
Theorem pong_received {C : Collaborators} (st : St) (chunk b : bytes) :
  isClosed (self st) = false ->
  buffer (current (self (received chunk st))) = Some b ->
  accepted (self st) b ->
  frame_opcode b = 0x0A ->
  step st (SocketData chunk)
  = MkSt (set_ping_flag (JBool true)
            (set_current
               (set_buffer None
                  (set_type2 (if frame_final b then type2 (current (self st))
                              else Some 0x0A)
                     (set_clength (frame_size b)
                        (set_isMask (frame_masked b)
                           (set_final (frame_final b)
                              (set_type (Some 0x0A) (current (self st))))))))
               (self st)))
         (trace st) (inflate_flushes st) (deflate_flushes st) (timers st).
Proof.
  intros Hc Hb Hacc Hop.
  frame_tests Hacc. unfold frame_opcode in Hop.
  unfold frame_size, frame_index, frame_masked, frame_final.
  open_client st. subst. unfold received in Hb. msimpl_in Hb. injection Hb as Hb.
  unfold step. cbn [handle]. unfold ondata. msimpl.
  generalize (match buffer0 with Some b0 => List.length b0 | None => 0%nat end
              + List.length chunk)%nat.
  intros n. cbn [ondata_rec]. msimpl. rewrite Hb.
  parse_frame Hlen Hpay Hlim Hfull. rewrite Hop.
  cbn [Z.eqb Pos.eqb negb andb]. msimpl.
  unfold ondata_dispatch. msimpl.
  destruct (Z.shiftr (Z.land (Buffer.get b 0) 128) 7 =? 1); msimpl; reflexivity.
Qed.

(** ** A frame in two chunks *)

(** [$parse] while it waits: it returns [false], and has set the header
    fields when more than two bytes are there. *)
Lemma parse_waiting {C : Collaborators} st b :
  buffer (current (self st)) = Some b ->
  waiting (self st) b ->
  parse st = (Ok false, if Buffer.len b <=? 2 then st else with_header b st).
Proof.
  intros Hb Hw.
  unfold waiting, over_limit, frame_size, frame_index, frame_masked in Hw.
  unfold with_header, frame_masked, frame_final, frame_opcode.
  open_client st. subst. unfold parse. msimpl.
  destruct (Buffer.len b <=? 2) eqn:Hlen; msimpl; [ reflexivity | ].
  apply Z.leb_gt in Hlen.
  destruct (getMessageLength b <=? 0) eqn:Hpay; msimpl; [ reflexivity | ].
  apply Z.leb_gt in Hpay.
  destruct Hw as [Hw | [Hw | [Hlim Hshort]]]; try lia.
  rewrite Hlim. msimpl. apply Z.ltb_lt in Hshort. rewrite Hshort. reflexivity.
Qed.

(** [$parse] sets the header fields anew as soon as more than two bytes
    are there. *)
Lemma ondata_rec_header {C : Collaborators} n st (x p held : bytes) :
  isClosed (self st) = false ->
  buffer (current (self st)) = Some held ->
  2 < Buffer.len (Buffer.concat held p) ->
  ondata_rec (S n) (Some p) (with_header x st) = ondata_rec (S n) (Some p) st.
Proof.
  intros Hc Hb Hlen. apply Z.leb_gt in Hlen. unfold with_header.
  open_client st. subst. cbn [ondata_rec]. msimpl.
  unfold parse. msimpl. rewrite Hlen. reflexivity.
Qed.

(** The chunks are added to the accumulator one after the other. *)
Lemma ondata_rec_received {C : Collaborators} n st (p1 p2 : bytes) :
  isClosed (self st) = false ->
  ondata_rec (S n) (Some p2) (received p1 st)
  = ondata_rec (S n) (Some (p1 ++ p2)) st.
Proof.
  intros Hc. unfold received. open_client st. subst. cbn [ondata_rec]. msimpl.
  destruct buffer0 as [ held | ]; unfold Buffer.concat; rewrite <- ?app_assoc;
    reflexivity.
Qed.

(** X13. A chunk that does not complete the frame at the head of the
    accumulator is only added to it: when [$parse] is still waiting after
    the chunk [p1], the chunks [p1] and [p2] one after the other leave the
    client, the trace and the queues exactly as the one chunk [p1 ++ p2]
    does. A frame, and the frames that follow it, may therefore arrive
    cut at any byte of the first frame. *)
Theorem frame_in_two_chunks {C : Collaborators} (st : St) (p1 p2 b1 : bytes) :
  buffer (current (self (received p1 st))) = Some b1 ->
  waiting (self st) b1 ->
  run [SocketData p1; SocketData p2] st = run [SocketData (p1 ++ p2)] st.
Proof.
  intros Hb Hw. cbn [run fold_left]. unfold step. cbn [handle].
  destruct (isClosed (self st)) eqn:Hc.
  { assert (E : forall c, exec (ondata c) st = st)
      by (intros c; unfold exec; exact (f_equal snd (ondata_closed st c Hc))).
    transitivity (exec (ondata p2) st); [ f_equal; apply E | ].
    transitivity st; [ apply E | symmetry; apply E ]. }
  assert (Hw' : waiting (self (received p1 st)) b1)
    by (clear - Hw; open_client st; exact Hw).
  pose proof (parse_waiting _ Hb Hw') as Hp.
  unfold exec at 2. rewrite (ondata_unparsed st p1 Hc) by (rewrite Hp; reflexivity).
  rewrite Hp. cbn [snd]. unfold exec. f_equal.
  assert (Hc' : isClosed (self (received p1 st)) = false)
    by (clear - Hc; open_client st; exact Hc).
  assert (Hd : forall s, buffer (current (self s)) = Some b1 ->
            (match buffer (current (self s)) with
             | Some b => List.length b
             | None => 0%nat
             end + List.length p2)%nat
            = (match buffer (current (self st)) with
               | Some b => List.length b
               | None => 0%nat
               end + List.length (p1 ++ p2))%nat).
  { intros s ->. clear - Hb. open_client st. unfold received in Hb.
    msimpl_in Hb. injection Hb as <-. rewrite length_app.
    destruct buffer0; [ | reflexivity ].
    unfold Buffer.concat. rewrite length_app. lia. }
  destruct (Buffer.len b1 <=? 2) eqn:Hlen1.
  - unfold ondata. rewrite (Hd _ Hb). apply ondata_rec_received. exact Hc.
  - unfold ondata.
    assert (Hbh : buffer (current (self (with_header b1 (received p1 st)))) = Some b1).
    { clear - Hb. unfold with_header. open_client st. unfold received in *.
      msimpl. msimpl_in Hb. exact Hb. }
    rewrite (Hd _ Hbh).
    rewrite (@ondata_rec_header C _ _ b1 p2 b1 Hc' Hb).
    + apply ondata_rec_received. exact Hc.
    + apply Z.leb_gt in Hlen1. unfold Buffer.len, Buffer.concat in *.
      rewrite length_app. lia.
Qed.

(** ** Masked frames *)

Lemma xor_from_length key : forall p k, List.length (Buffer.xor_from k key p) = List.length p.
Proof. induction p as [ | x p IH ]; intros k; cbn; [ | rewrite IH ]; reflexivity. Qed.

Lemma xor_from_twice key : forall p k,
  Buffer.xor_from k key (Buffer.xor_from k key p) = p.
Proof.
  induction p as [ | x p IH ]; intros k; cbn [Buffer.xor_from]; [ reflexivity | ].
  rewrite IH, Z.lxor_assoc, Z.lxor_nilpotent, Z.lxor_0_r. reflexivity.
Qed.

Lemma frame_index_low (b : bytes) : 2 <= frame_index b.
Proof.
  unfold frame_index.
  repeat match goal with |- context [ if ?c then _ else _ ] => destruct c end; lia.
Qed.

Lemma frame_index_masked (b : bytes) : frame_masked b = true -> 6 <= frame_index b.
Proof.
  intros H. unfold frame_index. rewrite H.
  repeat match goal with |- context [ if ?c then _ else _ ] => destruct c end; lia.
Qed.

Lemma get_nth (b : bytes) (i : Z) : 0 <= i -> Buffer.get b i = nth (Z.to_nat i) b 0.
Proof. intros H. unfold Buffer.get. apply Z.ltb_ge in H. rewrite H. reflexivity. Qed.

(** The bytes of the payload and of the key, read from the accumulator. *)
Lemma frame_payload_get {C : Collaborators} (b : bytes) (i : Z) :
  0 <= getMessageLength b ->
  frame_size b <= Buffer.len b ->
  0 <= i < getMessageLength b ->
  Buffer.get (frame_payload b) i = Buffer.get b (frame_index b + i).
Proof.
  intros Hpay Hfull Hi. pose proof (frame_index_low b) as Hlow.
  rewrite frame_payload_bytes by assumption.
  rewrite !get_nth by lia. rewrite nth_firstn.
  replace (Z.to_nat i <? Z.to_nat (getMessageLength b))%nat with true
    by (symmetry; apply Nat.ltb_lt; lia).
  rewrite nth_skipn. f_equal. lia.
Qed.

Lemma frame_key_get {C : Collaborators} (b : bytes) (j : Z) :
  frame_masked b = true ->
  frame_index b <= Buffer.len b ->
  0 <= j < 4 ->
  Buffer.get (frame_key b) j = Buffer.get b (frame_index b - 4 + j).
Proof.
  intros Hm Hfull Hj. pose proof (frame_index_masked b Hm) as Hlow.
  unfold frame_key, Buffer.copy, Buffer.alloc.
  cbn [Z.to_nat skipn firstn app Pos.to_nat Pos.iter_op Nat.add repeat List.length].
  replace (frame_index b - (frame_index b - 4)) with 4 by lia.
  set (chunk := firstn (Z.to_nat 4) (skipn (Z.to_nat (frame_index b - 4)) b)).
  assert (Hl : List.length chunk = 4%nat).
  { subst chunk. rewrite length_firstn, length_skipn. unfold Buffer.len in Hfull. lia. }
  change (repeat 0 (Pos.to_nat 4)) with [0; 0; 0; 0]. cbn [List.length].
  rewrite (firstn_all2 chunk) by lia. rewrite Hl. cbn [skipn]. rewrite app_nil_r.
  rewrite !get_nth by lia. subst chunk. rewrite nth_firstn.
  replace (Z.to_nat j <? Z.to_nat 4)%nat with true by (symmetry; apply Nat.ltb_lt; lia).
  rewrite nth_skipn. f_equal. lia.
Qed.

Lemma unmasked_bytes {C : Collaborators} (b : bytes) :
  0 < getMessageLength b ->
  frame_size b <= Buffer.len b ->
  Buffer.len (unmasked b) = getMessageLength b
  /\ (forall i, 0 <= i < getMessageLength b ->
        Buffer.get (unmasked b) i = unmasked_byte b i)
  /\ (frame_masked b = true ->
      Buffer.xor_mask (frame_key b) (unmasked b) = frame_payload b).
Proof.
  intros Hpay Hfull.
  assert (Hlen : Buffer.len (frame_payload b) = getMessageLength b).
  { rewrite frame_payload_bytes by lia. unfold Buffer.len.
    rewrite length_firstn, length_skipn.
    pose proof (frame_index_low b). unfold Buffer.len, frame_size in Hfull. lia. }
  unfold unmasked, unmasked_byte. destruct (frame_masked b) eqn:Hm.
  - split; [ | split ].
    + unfold Buffer.len, Buffer.xor_mask in *. rewrite xor_from_length. exact Hlen.
    + intros i Hi. rewrite get_nth by lia.
      rewrite xor_mask_nth by (unfold Buffer.len in Hlen; lia).
      rewrite Z2Nat.id by lia.
      rewrite <- get_nth by lia.
      rewrite frame_payload_get by lia.
      rewrite frame_key_get; [ reflexivity | exact Hm | | ].
      * unfold frame_size in Hfull. lia.
      * apply Z.mod_pos_bound. lia.
    + intros _. apply xor_from_twice.
  - split; [ exact Hlen | split; [ | discriminate ] ].
    intros i Hi. apply frame_payload_get; lia.
Qed.

(** X14. With compression, [$parse] takes the mask off before it queues
    the payload of a data frame for the inflate stream: for a frame that
    it accepts (not a ping or a pong), the buffer put at the end of
    [inflatepending] has the length of the payload, its byte [i] is the
    byte [i] of the payload on the wire, [xor] the byte [i mod 4] of the
    masking key when the frame is masked, and its [$continue] mark is set
    exactly when the frame is not final. [current.data] is not touched. *)
Theorem parse_queues_unmasked_payload {C : Collaborators} (st : St) (b : bytes) :
  buffer (current (self st)) = Some b ->
  inflate (self st) = true ->
  accepted (self st) b ->
  frame_opcode b <> 0x09 ->
  frame_opcode b <> 0x0A ->
  exists q,
    parse st
    = (Ok true,
       exec (modify (fun w => set_inflatepending
                                (inflatepending w ++ [IBuf q (negb (frame_final b))]) w))
         (exec (modify_current
                  (fun c => set_mask (if frame_masked b then Some (frame_key b)
                                      else mask c)
                              (set_clength (frame_size b) c)))
            (with_header b st)))
    /\ Buffer.len q = getMessageLength b
    /\ forall i, 0 <= i < getMessageLength b -> Buffer.get q i = unmasked_byte b i.
Proof.
  intros Hb Hi Hacc H9 H10. exists (unmasked b).
  destruct (unmasked_bytes b) as (Hl & Hg & _); [ apply Hacc | apply Hacc | ].
  split; [ | split; [ exact Hl | exact Hg ] ].
  frame_tests Hacc.
  apply Z.eqb_neq in H9, H10. unfold frame_opcode in H9, H10.
  unfold with_header, unmasked, frame_payload, frame_key, frame_size, frame_index,
    frame_masked, frame_final, frame_opcode.
  open_client st. subst.
  parse_frame Hlen Hpay Hlim Hfull. rewrite H9, H10. msimpl.
  destruct (Z.shiftr (Z.land (Buffer.get b 1) 254) 7 =? 1); msimpl; reflexivity.
Qed.

(** X15. [$readbody] takes the mask off the payload that [$parse] has put
    in [current.data]: after [$parse] has accepted a frame on a connection
    without compression (not a ping or a pong), [$readbody] returns a
    buffer of the length of the payload whose byte [i] is the byte [i] of
    the payload on the wire, [xor] the byte [i mod 4] of the masking key
    when the frame is masked; the state is as [$parse] left it, with the
    payload as it was on the wire in [current.data]. Masking is its own
    inverse: the same key on the result gives the payload on the wire
    back. *)
Theorem readbody_unmasks {C : Collaborators} (st : St) (b : bytes) :
  buffer (current (self st)) = Some b ->
  inflate (self st) = false ->
  accepted (self st) b ->
  frame_opcode b <> 0x09 ->
  frame_opcode b <> 0x0A ->
  exists q,
    (parse ;; readbody) st = (Ok q, snd (parse st))
    /\ data (current (self (snd (parse st)))) = Some (frame_payload b)
    /\ Buffer.len q = getMessageLength b
    /\ (forall i, 0 <= i < getMessageLength b -> Buffer.get q i = unmasked_byte b i)
    /\ (frame_masked b = true -> Buffer.xor_mask (frame_key b) q = frame_payload b).
Proof.
  intros Hb Hi Hacc H9 H10. exists (unmasked b).
  destruct (unmasked_bytes b) as (Hl & Hg & Hr); [ apply Hacc | apply Hacc | ].
  split; [ | split; [ | split; [ exact Hl | split; [ exact Hg | exact Hr ] ] ] ];
    frame_tests Hacc;
    apply Z.eqb_neq in H9, H10; unfold frame_opcode in H9, H10;
    unfold unmasked, frame_payload, frame_key, frame_size, frame_index,
      frame_masked, frame_final, frame_opcode;
    open_client st; subst; unfold readbody;
    parse_frame Hlen Hpay Hlim Hfull; rewrite H9, H10; msimpl;
    destruct (Z.shiftr (Z.land (Buffer.get b 1) 254) 7 =? 1); msimpl; reflexivity.
Qed.

(** ** [send] *)

(** X16. In the binary family [send] tests the message for truthiness: a
    message that is falsy (the empty string, [0], [null], [undefined],
    [false]) is not sent. The call still returns [true] and counts in
    [F.stats.response.websocket], but nothing is written to the socket
    and nothing is queued for the deflate stream. *)
Theorem send_skips_falsy_binary_message {C : Collaborators}
    (st : St) (message : jsval) (raw : bool) (replacer : jsval) :
  isClosed (self st) = false ->
  closed (self st) = false ->
  istext (self st) = false ->
  truthy message = false ->
  send message raw replacer st
  = (Ok true,
     MkSt (self st) (trace st ++ [Stat "response.websocket" 1])
          (inflate_flushes st) (deflate_flushes st) (timers st)).
Proof.
  intros Hc Hd Ht Hm. open_client st. subst. unfold send. msimpl.
  rewrite Hm. reflexivity.
Qed.



(** ** What [send] encodes, [$decode] decodes *)

Section RoundTrip.

Context {C : Collaborators}.

(** The codecs of the two directions are inverse to each other. *)
Hypothesis utf8_encodes : forall s, exists b, Buffer_from (JStr s) = Some b.
Hypothesis utf8_round_trip :
  forall s b, Buffer_from (JStr s) = Some b -> toString_utf8 b = s.
Hypothesis uri_round_trip :
  forall s, js_decodeURIComponent (js_encodeURIComponent (JStr s)) = Some s.
Hypothesis uri_empty : js_decodeURIComponent EmptyString = Some EmptyString.
Hypothesis crypt_round_trip :
  forall s key, truthy key = true ->
    exists c, encrypt_data (JStr s) key = JStr c /\ decrypt_data c key = s.



End RoundTrip.


(** ** Frames in one chunk *)


















(** ** Concrete runs *)

(** [concrete]: a closed proposition about evaluated data. *)
Ltac concrete :=
  vm_compute;
  repeat match goal with
         | |- _ /\ _ => split
         | |- Forall _ _ => constructor; vm_compute
         end;
  try first [ reflexivity | intro; discriminate ].



(** The close frame [88 02 03 E8] (code 1000, no reason) received by an
    open client. *)
Lemma close_frame_received_witness :
  let st := open_text_client in
  let b : bytes := [0x88; 0x02; 0x03; 0xE8] in
  (buffer (current (self (received b st))) = Some b
   /\ accepted (self st) b /\ frame_opcode b = 0x08)
  /\ trace (step st (SocketData b))
     = [SocketEnd (Frame (JNum 1000) (JStr EmptyString) 0x08 false false)]
  /\ closecode (self (step st (SocketData b))) = JNum 1000
  /\ closemessage (self (step st (SocketData b))) = JStr EmptyString
  /\ isClosed (self (step st (SocketData b))) = true
  /\ o_reconnect (options (self (step st (SocketData b)))) = 0.
Proof.
  intros st b.
  assert (Ha : accepted (self st) b) by concrete.
  destruct (@close_frame_received plain_collaborators st b b eq_refl eq_refl eq_refl
              Ha eq_refl) as (E1 & E2 & E3 & E4 & _ & E6).
  split; [ split; [ reflexivity | split; [ exact Ha | reflexivity ] ] | ].
  split; [ by_instance E1 | ].
  split; [ by_instance E2 | ].
  split; [ by_instance E3 | ].
  split; [ by_instance E4 | by_instance E6 ].
Defined.

(** The pong [8A 01 41] received by an open client. *)
Lemma pong_received_witness :
  let st := open_text_client in
  let b : bytes := [0x8A; 0x01; 0x41] in
  (buffer (current (self (received b st))) = Some b
   /\ accepted (self st) b /\ frame_opcode b = 0x0A)
  /\ ping_flag (self (step st (SocketData b))) = JBool true
  /\ buffer (current (self (step st (SocketData b)))) = None
  /\ trace (step st (SocketData b)) = [].
Proof.
  intros st b.
  assert (Ha : accepted (self st) b) by concrete.
  pose proof (@pong_received plain_collaborators st b b eq_refl eq_refl Ha eq_refl)
    as E.
  pose proof (f_equal (fun s => ping_flag (self s)) E) as E1.
  pose proof (f_equal (fun s => buffer (current (self s))) E) as E2.
  pose proof (f_equal trace E) as E3.
  cbv beta in E1, E2.
  split; [ split; [ reflexivity | split; [ exact Ha | reflexivity ] ] | ].
  split; [ by_instance E1 | ]. split; [ by_instance E2 | by_instance E3 ].
Defined.

(** The text frame [81 03 48 65 79] cut after its third byte. *)
Lemma frame_in_two_chunks_witness :
  let st := open_text_client in
  let p1 : bytes := [0x81; 0x03; 0x48] in
  let p2 : bytes := [0x65; 0x79] in
  (buffer (current (self (received p1 st))) = Some p1 /\ waiting (self st) p1)
  /\ run [SocketData p1; SocketData p2] st = run [SocketData (p1 ++ p2)] st
  /\ emitted "message" (trace (run [SocketData p1; SocketData p2] st))
     = [[JStr "Hey"]].
Proof.
  intros st p1 p2.
  assert (Hw : waiting (self st) p1)
    by (right; right; split; reflexivity).
  pose proof (@frame_in_two_chunks plain_collaborators st p1 p2 p1 eq_refl Hw) as E.
  pose proof (f_equal (fun s => emitted "message" (trace s)) E) as E1.
  cbv beta in E1.
  split; [ split; [ reflexivity | exact Hw ] | ].
  split; [ exact E | by_instance E1 ].
Defined.

(** The masked binary frame [82 81 0F 0F 0F 0F 4E] on a connection with
    compression: the byte queued for the inflate stream is
    [4E xor 0F = 41]. *)
Lemma parse_queues_unmasked_payload_witness :
  let st := received masked_frame (open_binary_client true) in
  (buffer (current (self st)) = Some masked_frame
   /\ inflate (self st) = true
   /\ accepted (self st) masked_frame)
  /\ exists q,
       inflatepending (self (exec parse st)) = [IBuf q false]
       /\ Buffer.len q = 1
       /\ Buffer.get q 0 = 0x41.
Proof.
  intros st.
  assert (Ha : accepted (self st) masked_frame) by concrete.
  assert (H9 : frame_opcode masked_frame <> 0x09) by (vm_compute; discriminate).
  assert (HA : frame_opcode masked_frame <> 0x0A) by (vm_compute; discriminate).
  assert (H0 : 0 <= 0 < getMessageLength masked_frame)
    by (vm_compute; split; [ discriminate | reflexivity ]).
  destruct (@parse_queues_unmasked_payload plain_collaborators st masked_frame
              eq_refl eq_refl Ha H9 HA) as (q & Hp & Hl & Hb).
  pose proof (f_equal (fun r => inflatepending (self (snd r))) Hp) as E1.
  pose proof (Hb 0 H0) as E2. cbv beta in E1.
  split; [ split; [ reflexivity | split; [ reflexivity | exact Ha ] ] | ].
  exists q. split; [ by_instance E1 | ]. split; [ by_instance Hl | by_instance E2 ].
Defined.

(** The same frame without compression: [$readbody] would return [41],
    while [current.data] holds the wire byte [4E]. *)
Lemma readbody_unmasks_witness :
  let st := received masked_frame (open_binary_client false) in
  (buffer (current (self st)) = Some masked_frame
   /\ inflate (self st) = false
   /\ accepted (self st) masked_frame)
  /\ data (current (self (snd (parse st)))) = Some [0x4E]
  /\ exists q,
       fst ((parse ;; readbody) st) = Ok q
       /\ Buffer.len q = 1
       /\ Buffer.get q 0 = 0x41.
Proof.
  intros st.
  assert (Ha : accepted (self st) masked_frame) by concrete.
  assert (H9 : frame_opcode masked_frame <> 0x09) by (vm_compute; discriminate).
  assert (HA : frame_opcode masked_frame <> 0x0A) by (vm_compute; discriminate).
  assert (H0 : 0 <= 0 < getMessageLength masked_frame)
    by (vm_compute; split; [ discriminate | reflexivity ]).
  destruct (@readbody_unmasks plain_collaborators st masked_frame
              eq_refl eq_refl Ha H9 HA) as (q & Hr & Hd & Hl & Hb & _).
  pose proof (f_equal fst Hr) as E1. pose proof (Hb 0 H0) as E2.
  split; [ split; [ reflexivity | split; [ reflexivity | exact Ha ] ] | ].
  split; [ by_instance Hd | ].
  exists q. split; [ exact E1 | ]. split; [ by_instance Hl | by_instance E2 ].
Defined.

(** [send('')] on an open binary client. *)
Lemma send_skips_falsy_binary_message_witness :
  let st := open_binary_client false in
  let r := send (JStr EmptyString) false JUndefined st in
  (isClosed (self st) = false /\ closed (self st) = false
   /\ istext (self st) = false /\ truthy (JStr EmptyString) = false)
  /\ fst r = Ok true
  /\ written (trace (snd r)) = []
  /\ trace (snd r) = [Stat "response.websocket" 1].
Proof.
  intros st r.
  pose proof (@send_skips_falsy_binary_message plain_collaborators st
                (JStr EmptyString) false JUndefined eq_refl eq_refl eq_refl eq_refl)
    as E.
  pose proof (f_equal fst E) as E1.
  pose proof (f_equal (fun x => written (trace (snd x))) E) as E2.
  pose proof (f_equal (fun x => trace (snd x)) E) as E3.
  cbv beta in E2, E3.
  split; [ repeat split; reflexivity | ].
  split; [ by_instance E1 | ]. split; [ by_instance E2 | by_instance E3 ].
Defined.



